(** * GlassForge terminal front end: command classifier, dispatcher,
      snapshot store and audio codec helpers

    A shallow embedding of the TypeScript sources

    - [services/geminiService.ts]  (completion wrapper, base64 helpers),
    - [services/snapshotService.ts] (snapshot persistence on localStorage),
    - the terminal view with the NLU layer, [unnamed/part_000]
      (classifier and dispatcher; line numbers below refer to it),
    - [types.ts] as extended in [unnamed/part_001], and [constants.ts],

    together with the properties the specification states about them.

    Conventions.  A JavaScript string is a Rocq [string]; in the codec
    module a character stands for one code unit below 256 (a "binary
    string"), elsewhere for one byte of the text.  [undefined] is [None].
    Engine builtins whose behaviour is not written in the repository
    ([JSON.parse], [toLowerCase], [trim], ...) are fields of the class
    [Host]; the network, the microphone and the clock are fields of the
    record [World].  Every theorem about the classifier and the dispatcher
    holds for all hosts and all worlds. *)

From Stdlib Require Import ZArith NArith String Ascii List Bool Lia ZifyNat Strings.Byte Sorted.
From stdpp Require Import base list strings option pretty.

(** ** Completion records

    A call either returns normally or throws; the thrown value is reduced
    to the [message] of the error object, the only part the sources read. *)

Inductive Completion (A : Type) : Type :=
| Normal (a : A)
| Throw (message : string).
Arguments Normal {A} a.
Arguments Throw {A} message.

(** ** services/geminiService.ts: audio codec helpers *)

Module GeminiService.

(** *** The host's [btoa] and [atob]

    Both are browser builtins.  [btoa] is RFC 4648 base64 with padding
    (it throws on a code unit above 255, which a binary string does not
    have); [atob] is the "forgiving-base64 decode" of the WHATWG Infra
    standard.
    Octets and sextets are numbers in [N]; a group is assembled and split
    arithmetically. *)

Definition alphabet : string :=
  "ABCDEFGHIJKLMNOPQRSTUVWXYZabcdefghijklmnopqrstuvwxyz0123456789+/".

Definition pad_char : ascii := "="%char.

Definition sextet_char (i : N) : ascii :=
  match String.get (N.to_nat i) alphabet with
  | Some c => c
  | None => pad_char
  end.

Fixpoint position_from (c : ascii) (s : string) (i : N) : option N :=
  match s with
  | EmptyString => None
  | String d rest => if Ascii.eqb c d then Some i else position_from c rest (N.succ i)
  end.

Definition char_sextet (c : ascii) : option N := position_from c alphabet 0%N.

(** Three octets make four sextets; a final group of two octets makes
    three sextets and one of one octet makes two. *)
Fixpoint sextets_of_octets (l : list N) : list N :=
  match l with
  | a :: b :: c :: rest =>
      let n := (a * 65536 + b * 256 + c)%N in
      (n / 262144 :: (n / 4096) mod 64 :: (n / 64) mod 64 :: n mod 64
         :: sextets_of_octets rest)%N
  | [a; b] =>
      let n := ((a * 256 + b) * 4)%N in
      [n / 4096; (n / 64) mod 64; n mod 64]%N
  | [a] =>
      let n := (a * 16)%N in
      [n / 64; n mod 64]%N
  | [] => []
  end.

Fixpoint padding (l : list N) : list ascii :=
  match l with
  | _ :: _ :: _ :: rest => padding rest
  | [_; _] => [pad_char]
  | [_] => [pad_char; pad_char]
  | [] => []
  end.

Definition btoa (binary : string) : string :=
  let octets := map N_of_ascii (list_ascii_of_string binary) in
  string_of_list_ascii
    (map sextet_char (sextets_of_octets octets) ++ padding octets).

Definition is_ascii_whitespace (c : ascii) : bool :=
  let n := N_of_ascii c in
  ((n =? 9) || (n =? 10) || (n =? 12) || (n =? 13) || (n =? 32))%N.

(** "If the length divides by 4 leaving no remainder and the data ends
    with one or two U+003D, remove them." *)
Definition strip_padding (data : list ascii) : list ascii :=
  if (length data mod 4 =? 0)%nat then
    match rev data with
    | p :: q :: r =>
        if Ascii.eqb p pad_char then
          if Ascii.eqb q pad_char then rev r else rev (q :: r)
        else data
    | [p] => if Ascii.eqb p pad_char then [] else data
    | [] => data
    end
  else data.

Fixpoint sextets_of_chars (data : list ascii) : option (list N) :=
  match data with
  | [] => Some []
  | c :: rest =>
      match char_sextet c, sextets_of_chars rest with
      | Some i, Some l => Some (i :: l)
      | _, _ => None
      end
  end.

(** Four sextets make three octets; a final group of three sextets drops
    its last two bits, one of two sextets drops its last four. *)
Fixpoint octets_of_sextets (l : list N) : list N :=
  match l with
  | a :: b :: c :: d :: rest =>
      let n := (((a * 64 + b) * 64 + c) * 64 + d)%N in
      (n / 65536 :: (n / 256) mod 256 :: n mod 256 :: octets_of_sextets rest)%N
  | [a; b; c] =>
      let n := ((((a * 64 + b) * 64 + c)) / 4)%N in
      [n / 256; n mod 256]%N
  | [a; b] =>
      let n := ((a * 64 + b) / 16)%N in
      [n]
  | _ => []
  end.

Definition octet (a : N) : Prop := (a < 256)%N.

Definition atob (data : string) : Completion string :=
  let stripped :=
    strip_padding
      (filter (λ c, is_ascii_whitespace c = false) (list_ascii_of_string data)) in
  if (length stripped mod 4 =? 1)%nat then Throw "InvalidCharacterError"
  else
    match sextets_of_chars stripped with
    | None => Throw "InvalidCharacterError"
    | Some l => Normal (string_of_list_ascii (map ascii_of_N (octets_of_sextets l)))
    end.

(** *** [encode] and [decode] (geminiService.ts, lines 108-125)

    A [Uint8Array] is a [list byte].  [String.fromCharCode] of an array
    element is the character with that code; storing a character code
    into a [Uint8Array] keeps it modulo 256. *)

Definition fromCharCode (b : byte) : ascii := ascii_of_byte b.

Definition charCodeAt (c : ascii) : N := N_of_ascii c.

Definition to_uint8 (n : N) : byte :=
  match Byte.of_N (n mod 256) with
  | Some b => b
  | None => x00
  end.

(** The loop [for (i = 0; i < len; i++) binary += String.fromCharCode(bytes[i])]. *)
Fixpoint encode_loop (bytes : list byte) (binary : string) : string :=
  match bytes with
  | [] => binary
  | b :: rest => encode_loop rest (binary +:+ String (fromCharCode b) EmptyString)
  end.

Definition encode (bytes : list byte) : string :=
  btoa (encode_loop bytes "").

(** The loop [for (i = 0; i < len; i++) bytes[i] = binaryString.charCodeAt(i)]. *)
Fixpoint decode_loop (binaryString : string) : list byte :=
  match binaryString with
  | EmptyString => []
  | String c rest => to_uint8 (charCodeAt c) :: decode_loop rest
  end.

Definition decode (base64 : string) : Completion (list byte) :=
  match atob base64 with
  | Throw e => Throw e
  | Normal binaryString => Normal (decode_loop binaryString)
  end.

(** *** [generateContent] (lines 27-58)

    The vendor
    SDK call [genAI.models.generateContent] either returns a response,
    whose [text] may be absent, or throws an error with a message. *)

Definition includes (s sub : string) : bool :=
  match index 0 sub s with
  | Some _ => true
  | None => false
  end.

Definition generateContent (outcome : Completion (option string)) : Completion string :=
  match outcome with
  | Normal text =>
      (* [response.text || 'No response generated.'] *)
      match text with
      | Some t => if String.eqb t "" then Normal "No response generated." else Normal t
      | None => Normal "No response generated."
      end
  | Throw message =>
      if includes message "API key" || includes message "UNAUTHENTICATED" then
        Throw "Gemini API Key issue: Ensure your API key is valid, selected, and has sufficient permissions/billing enabled."
      else if includes message "Requested entity was not found" then
        Throw "Gemini API Error: Model not found or unavailable. Please check the model name or API key."
      else Throw ("Failed to generate content: " +:+ message)
  end.

(** [startLiveSession] (lines 169-218) wraps [genAI.live.connect] the
    same way; the session object is opaque to the callers modelled here. *)
Definition startLiveSession (outcome : Completion unit) : Completion unit :=
  match outcome with
  | Normal session => Normal session
  | Throw message =>
      if includes message "API key" || includes message "UNAUTHENTICATED" then
        Throw "Gemini API Key issue: Ensure your API key is valid, selected, and has sufficient permissions/billing enabled."
      else if includes message "Requested entity was not found" then
        Throw "Gemini Live API Error: Model not found or unavailable for live sessions. Please check the model name or API key."
      else if includes message "Failed to fetch" then
        Throw "Network Error: Could not connect to Gemini Live API. Check your internet connection."
      else Throw ("Failed to start live session: " +:+ message)
  end.

End GeminiService.

(** ** types.ts and constants.ts *)

Module UserProfile.
Record t := mk { id : string; name : string; avatar : string; description : string }.
End UserProfile.

Inductive MessageType :=
| command | ai_response | system_message | error | terminal_game
| nlu_processing | nlu_clarification.

Module ChatMessage.
Record t := mk {
  id : string;
  sender : string;
  text : string;
  timestamp : string;
  isBot : bool;
  type : MessageType
}.
End ChatMessage.

(** What the Looking Glass panel is asked to show.  The JSX trees of the
    source are kept as tags carrying the data interpolated into them. *)
Inductive Panel :=
| ProfileCard (profile : UserProfile.t)
| ClaudeDevNotes
| SwarmMonitoringGuide
| SwarmPilotingGuide
| Markdown (code : string)
| RefactorSuggestions (targetFileName code : string)
| FoxMeditationCard
| SovereignBrainCard
| AutoCleanCard
| LoomStatusReport
| NLUStatusReport.

Inductive AppView := splash | terminal.

(** The Looking Glass state, the application state and a snapshot, over
    the type of what the panel holds: a React node (or [null]) in the
    running application, a JSON value in a record read back from
    storage. *)
Record LookingGlassState (Content : Type) := {
  isVisible : bool;
  position : Z * Z;
  size : Z * Z;
  content : Content;
  title : string
}.
Arguments isVisible {Content}.
Arguments position {Content}.
Arguments size {Content}.
Arguments content {Content}.
Arguments title {Content}.

Record AppState (Content : Type) := {
  currentView : AppView;
  currentUserProfileId : string;
  lookingGlassState : LookingGlassState Content
}.
Arguments currentView {Content}.
Arguments currentUserProfileId {Content}.
Arguments lookingGlassState {Content}.

Record TerminalState := {
  ts_terminalOutput : list ChatMessage.t;
  ts_currentUserProfile : UserProfile.t;
  ts_liveSessionActive : bool
}.

Module AppSnapshot.
Record t (Content : Type) := mk {
  id : string;
  timestamp : string;
  description : string;
  appState : AppState Content;
  terminalState : TerminalState;
  conceptualFileContents : list (string * string)
}.
Arguments mk {Content}.
Arguments id {Content}.
Arguments timestamp {Content}.
Arguments description {Content}.
Arguments appState {Content}.
Arguments terminalState {Content}.
Arguments conceptualFileContents {Content}.
End AppSnapshot.

Definition USER_PROFILES : list UserProfile.t :=
  [ UserProfile.mk "mike_talbert" "Mike Talbert" "👨‍💻"
      "The Architect and Visionary behind GlassForge, currently operating under harsh conditions.";
    UserProfile.mk "bleak" "Bleak Narratives" "🦊"
      "A deep-dive analyst and content strategist, focused on the narrative and data streams.";
    UserProfile.mk "syntax_ai_agent" "Syntax AI" "🤖"
      "Autonomous code optimizer and system maintenance agent." ].

(** ** JavaScript values

    The classifier's result is whatever [JSON.parse] returns, so it is kept
    as a JSON value.  A number is kept as its literal: the two places that
    look at a number ([ToBoolean], [ToString]) ask the host. *)

Set Warnings "-register-all".

Inductive json :=
| JNull
| JBool (b : bool)
| JNum (literal : string)
| JStr (s : string)
| JArr (items : list json)
| JObj (members : list (string * json)).

(** A value that may be [undefined]. *)
Definition jsval := option json.

(** Engine builtins.  [typeError_read p] and [typeError_call p] are the
    messages of the [TypeError]s raised by reading property [p] of [null]
    or [undefined] and by calling a missing method [p]. *)
Class Host := {
  JSON_parse : string → Completion json;
  JSON_stringify : json → string;
  toLowerCase : string → string;
  trim : string → string;
  substring : nat → nat → string → string;
  number_truthy : string → bool;
  number_toString : string → string;
  typeError_read : string → string;
  typeError_call : string → string;
  toLocaleTimeString : Z → string
}.

(** The environment of one run.  Each oracle is indexed by the number of
    environment interactions that happened before the one it answers. *)
Record World := {
  Date_now : nat → Z;
  models_generateContent : nat → Completion (option string);
  live_connect : nat → Completion unit;
  getUserMedia : nat → Completion unit
}.

Module JS.
Section Values.
Context `{Host}.

Fixpoint own_property (members : list (string * json)) (key : string) : jsval :=
  match members with
  | [] => None
  | (k, v) :: rest => if String.eqb k key then Some v else own_property rest key
  end.

(** [v.key] for a parsed value [v].  The keys read in this development
    ([intent], [parameters], [nuance], ...) name no builtin member of
    strings, numbers, booleans or arrays, so only objects answer. *)
Definition member (v : json) (key : string) : Completion jsval :=
  match v with
  | JNull => Throw (typeError_read key)
  | JObj members => Normal (own_property members key)
  | JBool _ | JNum _ | JStr _ | JArr _ => Normal None
  end.

(** [v?.key] *)
Definition optional_member (v : jsval) (key : string) : jsval :=
  match v with
  | Some (JObj members) => own_property members key
  | _ => None
  end.

(** [v.parameters?.name] for a value [v] that is not [null] *)
Definition parameter (v : json) (name : string) : jsval :=
  optional_member (optional_member (Some v) "parameters") name.

(** [v === 'literal'] *)
Definition strict_equals (v : jsval) (literal : string) : bool :=
  match v with
  | Some (JStr s) => String.eqb s literal
  | _ => false
  end.

(** ToBoolean *)
Definition truthy (v : jsval) : bool :=
  match v with
  | None | Some JNull => false
  | Some (JBool b) => b
  | Some (JNum literal) => number_truthy literal
  | Some (JStr s) => negb (String.eqb s "")
  | Some (JArr _) | Some (JObj _) => true
  end.

(** ToString, as applied by template literals. *)
Fixpoint toString_json (v : json) : string :=
  match v with
  | JNull => "null"
  | JBool true => "true"
  | JBool false => "false"
  | JNum literal => number_toString literal
  | JStr s => s
  | JArr items =>
      (fix join (l : list json) : string :=
         match l with
         | [] => ""
         | x :: rest =>
             let piece := match x with JNull => "" | _ => toString_json x end in
             match rest with
             | [] => piece
             | _ :: _ => piece +:+ "," +:+ join rest
             end
         end) items
  | JObj _ => "[object Object]"
  end.

Definition toString (v : jsval) : string :=
  match v with
  | None => "undefined"
  | Some j => toString_json j
  end.

(** [v || fallback] inside a template literal. *)
Definition or_else (v : jsval) (fallback : string) : string :=
  if truthy v then toString v else fallback.

(** [s.replace(pattern, '')]: the first occurrence of [pattern] is removed. *)
Definition remove_first (pattern s : string) : string :=
  match index 0 pattern s with
  | Some i =>
      String.substring 0 i s
        +:+ String.substring (i + String.length pattern)
              (String.length s - (i + String.length pattern)) s
  | None => s
  end.

End Values.
End JS.

Definition dq : string := String (ascii_of_nat 34) EmptyString.
Definition nl : string := String (ascii_of_nat 10) EmptyString.

(** ** services/snapshotService.ts

    The service keeps one localStorage item.  The store is represented by
    what [getSnapshots] reads from it: nothing (no item, or the empty
    string); text on which [getItem] or [JSON.parse] throws; a value that
    is not an array; or an array.  An array holds records, [saveSnapshots]
    being the only writer of arrays.

    A record read back is not the snapshot that was written but what
    [JSON.stringify] and [JSON.parse] make of it.  Strings, booleans, the
    coordinates, arrays and plain objects come back as they were.  The
    Looking Glass content does not: in the application it is a React node,
    and what [JSON.stringify] does with one - throw, or write some plain
    object - belongs to React and the engine.  That is the parameter
    [content_json]: the JSON value written for the content, absent when the
    property is left out, or the error thrown. *)

Module SnapshotService.

(** A record of the stored array. *)
Abbreviation Stored := (AppSnapshot.t jsval).

Inductive Storage :=
| Absent
| Unparseable
| NotAnArray (is_null : bool)
| Snapshots (snapshots : list Stored).

(** What [getSnapshots] returns: an array, or another parsed value,
    [null] or not. *)
Inductive Read :=
| Array (items : list Stored)
| Value (is_null : bool).

(** [getSnapshots]: a missing item gives [[]]; an error is caught and
    gives [[]] too; a parsed value is returned whatever it is. *)
Definition getSnapshots (store : Storage) : Read :=
  match store with
  | Snapshots snapshots => Array snapshots
  | Absent | Unparseable => Array []
  | NotAnArray is_null => Value is_null
  end.

(** The records in the store. *)
Definition records (store : Storage) : list Stored :=
  match getSnapshots store with
  | Array items => items
  | Value _ => []
  end.

(** [JSON.parse(JSON.stringify(snapshot))] *)
Definition stored {Content} (content_json : Content → Completion jsval)
    (snapshot : AppSnapshot.t Content) : Completion Stored :=
  let appState := AppSnapshot.appState snapshot in
  let glass := lookingGlassState appState in
  match content_json (content glass) with
  | Normal written =>
      Normal
        (AppSnapshot.mk (AppSnapshot.id snapshot) (AppSnapshot.timestamp snapshot)
           (AppSnapshot.description snapshot)
           {| currentView := currentView appState;
              currentUserProfileId := currentUserProfileId appState;
              lookingGlassState :=
                {| isVisible := isVisible glass; position := position glass;
                   size := size glass; content := written;
                   title := title glass |} |}
           (AppSnapshot.terminalState snapshot)
           (AppSnapshot.conceptualFileContents snapshot))
  | Throw message => Throw message
  end.

(** [saveSnapshots]: [snapshots] is the array as [JSON.stringify] writes
    it, or the error it throws; [writable] tells whether [setItem]
    succeeds.  Either error is caught and logged, and the store keeps its
    old contents. *)
Definition saveSnapshots (writable : bool) (snapshots : Completion (list Stored))
    (store : Storage) : Storage :=
  match snapshots with
  | Normal written => if writable then Snapshots written else store
  | Throw _ => store
  end.

Section Service.
Context `{Host}.

(** [v.name(...)] for the value read: only an array has the method. *)
Definition array_method (callee name : string) (v : Read)
    : Completion (list Stored) :=
  match v with
  | Array items => Normal items
  | Value true => Throw (typeError_read name)
  | Value false => Throw (typeError_call (callee +:+ "." +:+ name))
  end.

(** [saveSnapshot] (lines 24-31).  The [filter] call is outside every
    [try]: on a value that is not an array it throws, and nothing is
    written. *)
Definition saveSnapshot {Content} (content_json : Content → Completion jsval)
    (writable : bool) (snapshot : AppSnapshot.t Content) (store : Storage)
    : Completion unit * Storage :=
  match array_method "snapshots" "filter" (getSnapshots store) with
  | Normal snapshots =>
      let filteredSnapshots :=
        filter (λ s, AppSnapshot.id s ≠ AppSnapshot.id snapshot) snapshots in
      (Normal (),
       saveSnapshots writable
         match stored content_json snapshot with
         | Normal pushed => Normal (filteredSnapshots ++ [pushed])
         | Throw message => Throw message
         end
         store)
  | Throw message => (Throw message, store)
  end.

(** [loadSnapshot] (lines 39-48) *)
Definition loadSnapshot (id : string) (store : Storage) : Completion (option Stored) :=
  match array_method "snapshots" "find" (getSnapshots store) with
  | Normal snapshots =>
      Normal (find (λ s, String.eqb (AppSnapshot.id s) id) snapshots)
  | Throw message => Throw message
  end.

(** [deleteSnapshot] (lines 50-60).  [snapshots.length] is read first:
    that throws on [null]; on another value that is not an array the
    [filter] call does. *)
Definition deleteSnapshot (writable : bool) (id : string) (store : Storage)
    : Completion unit * Storage :=
  match
    match getSnapshots store with
    | Value true => Throw (typeError_read "length")
    | read => array_method "snapshots" "filter" read
    end
  with
  | Normal snapshots =>
      let remaining := filter (λ s, AppSnapshot.id s ≠ id) snapshots in
      (Normal (),
       if (length remaining <? length snapshots)%nat
       then saveSnapshots writable (Normal remaining) store
       else store)
  | Throw message => (Throw message, store)
  end.

End Service.






End SnapshotService.

(** ** types.ts: messages of the live session (lines 98-131 of
    [unnamed/part_001]) *)

Module Blob.
Record t := mk { data : string; mimeType : string }.
End Blob.

Module Transcription.
Record t := mk { text : string; isFinal : bool }.
End Transcription.

Record Part := { inlineData : option Blob.t; part_text : option string }.

Record LiveServerContent := {
  modelTurn : option (list Part);
  interrupted : option bool;
  outputTranscription : option Transcription.t;
  inputTranscription : option Transcription.t;
  turnComplete : option bool
}.

(** The [toolCall] member is not read by the terminal view. *)
Record LiveServerMessage := { serverContent : option LiveServerContent }.

(** ** views/TerminalView.tsx: component state *)

(** Calls into collaborators, in the order they are made. *)
Inductive Request :=
| ClassifyRequest (rawCommand : string)
| GeneralQueryRequest (query : jsval) (profile : UserProfile.t) (nuance : jsval)
| IdeaRequest (ideaDescription : jsval) (profile : UserProfile.t) (nuance : jsval)
| RefactorRequest (targetFileName : string).

Inductive Call :=
| GenerateContent (request : Request)
| LiveConnect (profile : UserProfile.t)
| SessionClose
| GetUserMedia
| TrackStop
| ScriptProcessorDisconnect
| InputNodeDisconnect
| AudioContextClose
| SelectApiKey
| UpdateLookingGlassContent (content : Panel) (title : string)
| ToggleLookingGlass (isVisible : option bool)
| TakeSnapshot (description : string)
| ShowSnapshotList.

(** The [useState] cells. *)
Record View := {
  terminalOutput : list ChatMessage.t;
  commandInput : string;
  loading : bool;
  liveSessionActive : bool;
  liveTranscript : option string;
  audioQueue : list string;
  isInterrupted : bool;
  currentUserProfile : UserProfile.t
}.

(** The [useRef] cells; [true] stands for a non-null [current].  The
    session promise, when there is one, is resolved ([Some true]) or
    rejected ([Some false]). *)
Record Refs := {
  audioContextRef : bool;
  inputNodeRef : bool;
  scriptProcessorRef : bool;
  mediaStreamRef : bool;
  sessionPromiseRef : option bool
}.

(** [pending] holds the invocations of [handleCommandSubmit] that are
    suspended at [await analyzeNaturalLanguageCommand], oldest first, each
    with its argument. *)
Record State := {
  view : View;
  refs : Refs;
  calls : list Call;
  ticks : nat;
  pending : list string
}.

(** What a render closes over: the props and the state cells as they were
    when the handlers were created.  Handlers read these and write the
    live cells. *)
Record Render := {
  isGeminiActive : bool;
  genAI : bool;
  lookingGlassContext : bool;
  seen_liveSessionActive : bool;
  seen_currentUserProfile : UserProfile.t
}.

Definition render_of (isGeminiActive genAI lookingGlassContext : bool) (st : State) : Render :=
  {| isGeminiActive := isGeminiActive;
     genAI := genAI;
     lookingGlassContext := lookingGlassContext;
     seen_liveSessionActive := liveSessionActive (view st);
     seen_currentUserProfile := currentUserProfile (view st) |}.

Definition with_view (f : View → View) (st : State) : State :=
  {| view := f (view st); refs := refs st; calls := calls st;
     ticks := ticks st; pending := pending st |}.

Definition with_refs (f : Refs → Refs) (st : State) : State :=
  {| view := view st; refs := f (refs st); calls := calls st;
     ticks := ticks st; pending := pending st |}.

Definition with_calls (f : list Call → list Call) (st : State) : State :=
  {| view := view st; refs := refs st; calls := f (calls st);
     ticks := ticks st; pending := pending st |}.

Definition with_ticks (f : nat → nat) (st : State) : State :=
  {| view := view st; refs := refs st; calls := calls st;
     ticks := f (ticks st); pending := pending st |}.

Definition with_pending (f : list string → list string) (st : State) : State :=
  {| view := view st; refs := refs st; calls := calls st;
     ticks := ticks st; pending := f (pending st) |}.

Definition view_terminalOutput (f : list ChatMessage.t → list ChatMessage.t) (v : View) : View :=
  {| terminalOutput := f (terminalOutput v); commandInput := commandInput v;
     loading := loading v; liveSessionActive := liveSessionActive v;
     liveTranscript := liveTranscript v; audioQueue := audioQueue v;
     isInterrupted := isInterrupted v; currentUserProfile := currentUserProfile v |}.

Definition view_commandInput (x : string) (v : View) : View :=
  {| terminalOutput := terminalOutput v; commandInput := x;
     loading := loading v; liveSessionActive := liveSessionActive v;
     liveTranscript := liveTranscript v; audioQueue := audioQueue v;
     isInterrupted := isInterrupted v; currentUserProfile := currentUserProfile v |}.

Definition view_loading (x : bool) (v : View) : View :=
  {| terminalOutput := terminalOutput v; commandInput := commandInput v;
     loading := x; liveSessionActive := liveSessionActive v;
     liveTranscript := liveTranscript v; audioQueue := audioQueue v;
     isInterrupted := isInterrupted v; currentUserProfile := currentUserProfile v |}.

Definition view_liveSessionActive (x : bool) (v : View) : View :=
  {| terminalOutput := terminalOutput v; commandInput := commandInput v;
     loading := loading v; liveSessionActive := x;
     liveTranscript := liveTranscript v; audioQueue := audioQueue v;
     isInterrupted := isInterrupted v; currentUserProfile := currentUserProfile v |}.

Definition view_liveTranscript (x : option string) (v : View) : View :=
  {| terminalOutput := terminalOutput v; commandInput := commandInput v;
     loading := loading v; liveSessionActive := liveSessionActive v;
     liveTranscript := x; audioQueue := audioQueue v;
     isInterrupted := isInterrupted v; currentUserProfile := currentUserProfile v |}.

Definition view_audioQueue (x : list string) (v : View) : View :=
  {| terminalOutput := terminalOutput v; commandInput := commandInput v;
     loading := loading v; liveSessionActive := liveSessionActive v;
     liveTranscript := liveTranscript v; audioQueue := x;
     isInterrupted := isInterrupted v; currentUserProfile := currentUserProfile v |}.

Definition view_isInterrupted (x : bool) (v : View) : View :=
  {| terminalOutput := terminalOutput v; commandInput := commandInput v;
     loading := loading v; liveSessionActive := liveSessionActive v;
     liveTranscript := liveTranscript v; audioQueue := audioQueue v;
     isInterrupted := x; currentUserProfile := currentUserProfile v |}.

Definition view_currentUserProfile (x : UserProfile.t) (v : View) : View :=
  {| terminalOutput := terminalOutput v; commandInput := commandInput v;
     loading := loading v; liveSessionActive := liveSessionActive v;
     liveTranscript := liveTranscript v; audioQueue := audioQueue v;
     isInterrupted := isInterrupted v; currentUserProfile := x |}.

Definition microphone_refs (x : bool) (r : Refs) : Refs :=
  {| audioContextRef := x; inputNodeRef := x; scriptProcessorRef := x;
     mediaStreamRef := x; sessionPromiseRef := sessionPromiseRef r |}.

Definition session_ref (x : option bool) (r : Refs) : Refs :=
  {| audioContextRef := audioContextRef r; inputNodeRef := inputNodeRef r;
     scriptProcessorRef := scriptProcessorRef r;
     mediaStreamRef := mediaStreamRef r; sessionPromiseRef := x |}.

(** Only the sink grew, by [m]; every other cell, the refs, the call log
    and the queue of suspended invocations are as before. *)
Definition appended (m : ChatMessage.t) (st st' : State) : Prop :=
  terminalOutput (view st') = terminalOutput (view st) ++ [m]
  ∧ commandInput (view st') = commandInput (view st)
  ∧ loading (view st') = loading (view st)
  ∧ liveSessionActive (view st') = liveSessionActive (view st)
  ∧ liveTranscript (view st') = liveTranscript (view st)
  ∧ audioQueue (view st') = audioQueue (view st)
  ∧ isInterrupted (view st') = isInterrupted (view st)
  ∧ currentUserProfile (view st') = currentUserProfile (view st)
  ∧ refs st' = refs st
  ∧ calls st' = calls st
  ∧ pending st' = pending st.

(** ** The monad of handlers: state, with exceptions that keep the state *)

Definition M (A : Type) : Type := State → Completion A * State.

#[global] Instance M_ret : MRet M := λ A a st, (Normal a, st).

#[global] Instance M_bind : MBind M := λ A B k m st,
  match m st with
  | (Normal a, st') => k a st'
  | (Throw message, st') => (Throw message, st')
  end.

Definition throw {A} (message : string) : M A := λ st, (Throw message, st).

Definition lift {A} (c : Completion A) : M A := λ st, (c, st).

Definition modify (f : State → State) : M unit := λ st, (Normal (), f st).

(** [try { body } catch (error) { handler(error.message) }] *)
Definition try_catch {A} (body : M A) (handler : string → M A) : M A := λ st,
  match body st with
  | (Normal a, st') => (Normal a, st')
  | (Throw message, st') => handler message st'
  end.

(** [try { body } finally { final }] *)
Definition try_finally {A} (body : M A) (final : M unit) : M A := λ st,
  match body st with
  | (outcome, st') =>
      match final st' with
      | (Normal _, st'') => (outcome, st'')
      | (Throw message, st'') => (Throw message, st'')
      end
  end.

(** Calling an [async] function without awaiting it: what it does up to
    its first [await] happens now; a rejection stays in the promise nobody
    looks at. *)
Definition unawaited {A} (m : M A) : M unit := λ st, (Normal (), snd (m st)).

(** ** Relations between the state before and after a handler *)

(** [keeps R m]: whatever [m] does and however it ends, the state it
    leaves is related by [R] to the state it started in. *)
Definition keeps {A} (R : relation State) (m : M A) : Prop :=
  ∀ st, R st (snd (m st)).

(** The sink after is the sink before, followed by zero or more messages. *)
Definition sink_grows : relation State := λ st st',
  terminalOutput (view st) `prefix_of` terminalOutput (view st').

(** No invocation was queued or taken off the queue. *)
Definition same_queue : relation State := λ st st', pending st' = pending st.

(** The current profile is the one before, or an entry of the table. *)
Definition profile_from_table : relation State := λ st st',
  currentUserProfile (view st') = currentUserProfile (view st)
  ∨ currentUserProfile (view st') ∈ USER_PROFILES.

(** Calls that leave the page: the completion API, the live connection
    and the microphone prompt. *)
Definition remote (c : Call) : bool :=
  match c with
  | GenerateContent _ | LiveConnect _ | GetUserMedia => true
  | _ => false
  end.

(** The call log grew, and by no remote call. *)
Definition offline : relation State := λ st st',
  ∃ l, calls st' = calls st ++ l ∧ forallb (λ c, negb (remote c)) l = true.


(** What [endLiveConversation] has to close and stop, given the refs. *)
Definition released (rs : Refs) : list Call :=
  (if sessionPromiseRef rs is Some true then [SessionClose] else [])
  ++ (if mediaStreamRef rs then [TrackStop] else [])
  ++ (if scriptProcessorRef rs then [ScriptProcessorDisconnect] else [])
  ++ (if inputNodeRef rs then [InputNodeDisconnect] else [])
  ++ (if audioContextRef rs then [AudioContextClose] else []).


(** ** views/TerminalView.tsx: the handlers *)

Module TerminalView.

(** The component as first mounted (lines 66-87). *)
Definition initial_state : State :=
  {| view :=
       {| terminalOutput := [];
          commandInput := "";
          loading := false;
          liveSessionActive := false;
          liveTranscript := None;
          audioQueue := [];
          isInterrupted := false;
          currentUserProfile := hd (UserProfile.mk "" "" "" "") USER_PROFILES |};
     refs :=
       {| audioContextRef := false; inputNodeRef := false;
          scriptProcessorRef := false; mediaStreamRef := false;
          sessionPromiseRef := None |};
     calls := [];
     ticks := 0;
     pending := [] |}.

Section Handlers.
Context `{Host} (w : World) (r : Render).
Import JS.

Definition tick : M nat := λ st, (Normal (ticks st), with_ticks S st).

Definition log (c : Call) : M unit := modify (with_calls (λ l, l ++ [c])).

Definition read_refs : M Refs := λ st, (Normal (refs st), st).

Definition setTerminalOutput (f : list ChatMessage.t → list ChatMessage.t) : M unit :=
  modify (with_view (view_terminalOutput f)).
Definition setCommandInput (x : string) : M unit :=
  modify (with_view (view_commandInput x)).
Definition setLoading (x : bool) : M unit :=
  modify (with_view (view_loading x)).
Definition setLiveSessionActive (x : bool) : M unit :=
  modify (with_view (view_liveSessionActive x)).
Definition setLiveTranscript (x : option string) : M unit :=
  modify (with_view (view_liveTranscript x)).
Definition setAudioQueue (x : list string) : M unit :=
  modify (with_view (view_audioQueue x)).
Definition setIsInterrupted (x : bool) : M unit :=
  modify (with_view (view_isInterrupted x)).
Definition setCurrentUserProfile (x : UserProfile.t) : M unit :=
  modify (with_view (view_currentUserProfile x)).

(** [addOutput] (lines 127-129) *)
Definition addOutput (message : ChatMessage.t) : M unit :=
  setTerminalOutput (λ prev, prev ++ [message]).

(** The object literal every call site passes to [addOutput]:
    [{ id: `prefix${Date.now()}`, sender, text,
       timestamp: new Date().toLocaleTimeString(), isBot, type }]. *)
Definition message (prefix sender text : string) (isBot : bool)
    (type : MessageType) : M ChatMessage.t :=
  k ← tick;
  k' ← tick;
  mret (ChatMessage.mk (prefix +:+ pretty (Date_now w k)) sender text
          (toLocaleTimeString (Date_now w k')) isBot type).

Definition output (prefix sender text : string) (isBot : bool)
    (type : MessageType) : M unit :=
  m ← message prefix sender text isBot type;
  addOutput m.

(** [clearTerminal] (lines 131-141) *)
Definition clearTerminal : M unit :=
  setTerminalOutput (λ _, []);;
  output "system-" "SYSTEM" "Terminal cleared." true system_message.

(** [lookingGlassContext?.method(...)]: nothing happens, and no argument
    is evaluated, without a context. *)
Definition lookingGlass (c : Call) : M unit :=
  if lookingGlassContext r then log c else mret ().

Definition show_panel (content : Panel) (title : string) : M unit :=
  lookingGlass (UpdateLookingGlassContent content title);;
  lookingGlass (ToggleLookingGlass (Some true)).

Definition inactive : bool := negb (isGeminiActive r) || negb (genAI r).

Definition profile_label : string :=
  UserProfile.name (seen_currentUserProfile r) +:+ " ("
    +:+ UserProfile.avatar (seen_currentUserProfile r) +:+ ")".

(** [await generateContent(genAI, modelName, ...)] *)
Definition call_generateContent (request : Request) : M string :=
  k ← tick;
  log (GenerateContent request);;
  lift (GeminiService.generateContent (models_generateContent w k)).

(** [handleAIGeneralQuery] (lines 575-632) *)
Definition handleAIGeneralQuery (query nuance : jsval) : M unit :=
  if inactive then
    output "err-" "SYSTEM"
      "Gemini API is inactive. Cannot process AI queries without AI. Please select an API key."
      true error;;
    log SelectApiKey
  else
    setLoading true;;
    output "ai-query-sub-" "SYSTEM"
      ("Processing AI query: " +:+ dq +:+ toString query +:+ dq +:+ " (Nuance: "
         +:+ or_else nuance "none" +:+ ")...")
      true system_message;;
    try_finally
      (try_catch
         (aiResponse ← call_generateContent
            (GeneralQueryRequest query (seen_currentUserProfile r) nuance);
          output "ai-query-res-" "AI" aiResponse true ai_response)
         (λ message,
            output "ai-query-err-" "SYSTEM"
              ("Error processing AI query: " +:+ message) true error))
      (setLoading false).

(** [ideaDescription.substring(0, 30)] *)
Definition idea_title (ideaDescription : jsval) : Completion string :=
  match ideaDescription with
  | Some (JStr s) => Normal ("Business Idea Analysis: " +:+ substring 0 30 s +:+ "...")
  | None | Some JNull => Throw (typeError_read "substring")
  | Some _ => Throw (typeError_call "ideaDescription.substring")
  end.

(** [handleNewIdea] (lines 636-699) *)
Definition handleNewIdea (ideaDescription nuance : jsval) : M unit :=
  if inactive then
    output "err-" "SYSTEM"
      "Gemini API is inactive. Cannot process new ideas without AI. Please select an API key."
      true error;;
    log SelectApiKey
  else
    setLoading true;;
    output "idea-sub-" "SYSTEM"
      ("Processing new idea: " +:+ dq +:+ toString ideaDescription +:+ dq +:+ " for "
         +:+ profile_label +:+ " (Nuance: " +:+ or_else nuance "none" +:+ ")...")
      true system_message;;
    try_finally
      (try_catch
         (aiAnalysis ← call_generateContent
            (IdeaRequest ideaDescription (seen_currentUserProfile r) nuance);
          (if lookingGlassContext r then
             title ← lift (idea_title ideaDescription);
             log (UpdateLookingGlassContent (Markdown aiAnalysis) title)
           else mret ());;
          lookingGlass (ToggleLookingGlass (Some true));;
          output "idea-res-" "AI"
            ("Analysis for " +:+ dq +:+ toString ideaDescription +:+ dq
               +:+ " complete. See Looking Glass for details. Conceptual Loom integration for idea lifecycle tracking active.")
            true ai_response)
         (λ message,
            output "idea-err-" "SYSTEM" ("Error analyzing idea: " +:+ message) true error))
      (setLoading false).

(** [handleRefactorCode] (lines 702-773) *)
Definition handleRefactorCode : M unit :=
  if inactive then
    output "err-" "SYSTEM"
      "Gemini API is inactive. Cannot provide refactoring suggestions without AI. Please select an API key."
      true error;;
    log SelectApiKey
  else
    setLoading true;;
    output "refactor-sub-" "SYSTEM"
      "AI Agent 'Syntax AI' analyzing code for refactoring opportunities..."
      true system_message;;
    try_finally
      (try_catch
         (aiAnalysis ← call_generateContent (RefactorRequest "pain_engine.py");
          show_panel (RefactorSuggestions "pain_engine.py" aiAnalysis)
            "Code Refactoring: pain_engine.py";;
          output "refactor-res-" "AI"
            "Refactoring analysis for 'pain_engine.py' complete. See Looking Glass for suggestions."
            true ai_response)
         (λ message,
            output "refactor-err-" "SYSTEM"
              ("Error during refactoring analysis: " +:+ message) true error))
      (setLoading false).

(** The conceptual module handlers (lines 777-947) *)
Definition handleSwarmAnalytics : M unit :=
  show_panel SwarmMonitoringGuide "Swarm Analytics: Data Flow".

Definition handleSwarmPilot : M unit :=
  show_panel SwarmPilotingGuide "Swarm Piloting Guide".

(** The "claudenotes" code, written inline in both [switch]es
    (lines 463-469 and 492). *)
Definition handleClaudeNotes : M unit :=
  show_panel ClaudeDevNotes "Claude's Development Notes".

Definition handleFoxMeditation : M unit :=
  output "foxmed-" "SYSTEM"
    ("CONCEPTUAL: Initiating Fox Meditation App generation (via Kimi.ai - see backend `fox_meditation.js`)."
       +:+ nl +:+ profile_label +:+ " is generating the app.")
    true system_message;;
  show_panel FoxMeditationCard "Fox Meditation App Gen".

Definition handleSovereignBrain : M unit :=
  output "sovereign-" "SYSTEM"
    ("CONCEPTUAL: Bridging ModMind intel to Pytch leads (see backend `sovereign_brain_bridge.py`)."
       +:+ nl +:+ profile_label
       +:+ " is orchestrating the intel bridge. Loom integration active for data tracking.")
    true system_message;;
  show_panel SovereignBrainCard "Sovereign Brain Bridge".

Definition handleAutoClean : M unit :=
  output "autoclean-" "SYSTEM"
    ("CONCEPTUAL: Initiating codebase auto-clean (see backend `autoclean.py`)."
       +:+ nl +:+ profile_label
       +:+ " is supervising syntax optimization. Optimized for massive data compression and Loom integration.")
    true system_message;;
  show_panel AutoCleanCard "AutoClean Utility".

Definition handleLoomDataOptimization : M unit :=
  show_panel LoomStatusReport "Loom Data Optimization";;
  output "loom_opt-" "SYSTEM" "CONCEPTUAL: Loom Data Optimization status opened."
    true system_message.

Definition handleNLUStatus : M unit :=
  show_panel NLUStatusReport "NLU Engine Status".

(** Live audio session (lines 1097-1310).  Creating the audio graph is
    taken to succeed once [getUserMedia] has. *)
Definition startMicrophoneInput : M unit :=
  try_catch
    (k ← tick;
     log GetUserMedia;;
     lift (getUserMedia w k);;
     modify (with_refs (microphone_refs true));;
     output "mic-start-" "SYSTEM" "Microphone input started for live session."
       true system_message)
    (λ message,
       setLiveSessionActive false;;
       output "mic-err-" "SYSTEM"
         ("Error accessing microphone: " +:+ message
            +:+ ". Please ensure permissions are granted.")
         true error).

Definition stopMicrophoneInput : M unit :=
  refs ← read_refs;
  (if mediaStreamRef refs then log TrackStop else mret ());;
  (if scriptProcessorRef refs then log ScriptProcessorDisconnect else mret ());;
  (if inputNodeRef refs then log InputNodeDisconnect else mret ());;
  (if audioContextRef refs then log AudioContextClose else mret ());;
  modify (with_refs (microphone_refs false));;
  output "mic-stop-" "SYSTEM" "Microphone input stopped." true system_message.

Definition startLiveConversation : M unit :=
  if inactive then
    output "err-" "SYSTEM"
      "Gemini API is inactive. Cannot start live audio. Please select an API key."
      true error;;
    log SelectApiKey
  else
    setLoading true;;
    try_finally
      (try_catch
         (setLiveSessionActive true;;
          k ← tick;
          log (LiveConnect (seen_currentUserProfile r));;
          let session := GeminiService.startLiveSession (live_connect w k) in
          modify (with_refs (session_ref
            (Some match session with Normal _ => true | Throw _ => false end)));;
          lift session;;
          startMicrophoneInput;;
          output "live-start-" "SYSTEM"
            "Live audio conversation started. You can now speak."
            true system_message)
         (λ message,
            setLiveSessionActive false;;
            output "live-fail-" "SYSTEM"
              ("Failed to start live conversation: " +:+ message +:+ ".")
              true error))
      (setLoading false).

Definition endLiveConversation : M unit :=
  refs ← read_refs;
  match sessionPromiseRef refs with
  | Some resolved =>
      (if resolved then log SessionClose else mret ());;
      modify (with_refs (session_ref None))
  | None => mret ()
  end;;
  stopMicrophoneInput;;
  setLiveSessionActive false;;
  setLiveTranscript None;;
  setAudioQueue [];;
  setIsInterrupted false.

(** *** The classifier: [analyzeNaturalLanguageCommand] (lines 198-299) *)

(** The intents the instruction prompt enumerates (lines 207-244). *)
Definition promptIntents : list string :=
  ["generate_idea"; "ask_ai"; "clear"; "help"; "switch_profile";
   "trigger_conceptual_backend"; "trigger_snapshot_action";
   "start_live_session"; "end_live_session"; "play_fox_hunt"; "clarify"].

(** The [case] labels of the dispatcher's [switch] (lines 350-552). *)
Definition caseLabels : list string :=
  ["clear"; "help"; "newidea_init_prompt"; "trigger_snapshot_action";
   "switch_profile"; "claudenotes"; "swarmanalytics"; "swarmpilot";
   "nlu_status"; "generate_idea"; "ask_ai"; "trigger_conceptual_backend";
   "start_live_session"; "end_live_session"; "play_fox_hunt";
   "jailbreak_protocol"; "unknown"].

Definition system_error_result : json :=
  JObj [("intent", JStr "System Error");
        ("parameters",
         JObj [("message", JStr "Gemini API is inactive. NLU unavailable.")]);
        ("commandType", JStr "unknown")].

Definition ask_ai_result (rawCommand : string) : json :=
  JObj [("intent", JStr "ask_ai");
        ("parameters", JObj [("query", JStr rawCommand)]);
        ("nuance", JStr "general");
        ("commandType", JStr "ai_generate")].

Definition nlu_failure_result (rawCommand message : string) : json :=
  JObj [("intent", JStr "ask_ai");
        ("parameters", JObj [("query", JStr rawCommand)]);
        ("nuance", JStr "general");
        ("commandType", JStr "ai_generate");
        ("clarificationNeeded", JBool true);
        ("clarificationMessage",
         JStr ("NLU failed to parse command. Please rephrase or use 'help'. Error: "
                 +:+ message))].

Definition validConceptualCommands : list string :=
  ["foxmeditation"; "sovereignbrain"; "autoclean"; "loom_optimize";
   "claudenotes"; "swarmanalytics"; "swarmpilot"; "jailbreak_protocol";
   "nlu_status"; "newidea_init_prompt"; "refactor_code"].

Definition validSnapshotActions : list string :=
  ["take_snapshot"; "restore_snapshot_list"].

(** [list.includes(s)] *)
Definition list_includes (l : list string) (s : string) : bool :=
  existsb (String.eqb s) l.

(** [typeof v === 'string'], with the string when it holds *)
Definition as_string (v : jsval) : option string :=
  match v with
  | Some (JStr s) => Some s
  | _ => None
  end.

Definition validate (nluOutput : json) (intent parameters : jsval)
    (rawCommand : string) : json :=
  match
    (if strict_equals intent "trigger_conceptual_backend"
     then as_string (optional_member parameters "script_name") else None)
  with
  | Some script_name =>
      if list_includes validConceptualCommands (toLowerCase script_name)
      then nluOutput else ask_ai_result rawCommand
  | None =>
      match
        (if strict_equals intent "trigger_snapshot_action"
         then as_string (optional_member parameters "action") else None)
      with
      | Some action =>
          if list_includes validSnapshotActions (toLowerCase action)
          then nluOutput else ask_ai_result rawCommand
      | None => nluOutput
      end
  end.

Definition analyzeNaturalLanguageCommand (rawCommand : string) : M json :=
  if inactive then mret system_error_result
  else
    try_catch
      (nluResponseText ← call_generateContent (ClassifyRequest rawCommand);
       nluOutput ← lift (JSON_parse nluResponseText);
       intent ← lift (member nluOutput "intent");
       parameters ← lift (member nluOutput "parameters");
       mret (validate nluOutput intent parameters rawCommand))
      (λ message, mret (nlu_failure_result rawCommand message)).

(** The classifier's answer as a function of what the completion call
    produced. *)
Definition answer (rawCommand : string) (completion : Completion string) : json :=
  match completion with
  | Throw message => nlu_failure_result rawCommand message
  | Normal text =>
      match JSON_parse text with
      | Throw message => nlu_failure_result rawCommand message
      | Normal nluOutput =>
          match member nluOutput "intent", member nluOutput "parameters" with
          | Normal intent, Normal parameters =>
              validate nluOutput intent parameters rawCommand
          | Throw message, _ | _, Throw message =>
              nlu_failure_result rawCommand message
          end
      end
  end.

Definition completion_at (st : State) : Completion string :=
  GeminiService.generateContent (models_generateContent w (ticks st)).

(** *** The dispatcher: [handleCommandSubmit] (lines 302-566)

    [handleCommandSubmit] is an [async] function that two of its own
    branches call without awaiting.  Such a call runs the callee up to its
    first [await] (lines 303-324) and returns; the rest of the callee runs
    when its classifier call settles.  The function is therefore split at
    that [await]: [handleCommandSubmit_enter] is the part before it and
    ends by queueing the invocation, [handleCommandSubmit_resume] is the
    part after it. *)

Definition helpText : string :=
  "Available commands (via Forge Ring or direct input):" +:+ nl +:+
  "- `clear`: Clears terminal output." +:+ nl +:+
  "- `help`: Shows this help message." +:+ nl +:+
  "- `profile <id>`: Switch user profile (e.g., `profile bleak`)." +:+ nl +:+
  "- `nlu_status`: Open the NLU status report." +:+ nl +:+
  "- `foxmeditation`: Conceptual: generate FoxMeditation app." +:+ nl +:+
  "- `sovereignbrain`: Conceptual: bridge intel to leads." +:+ nl +:+
  "- `autoclean`: Conceptual: clean codebase duplicates/syntax." +:+ nl +:+
  "- `loom_optimize`: Conceptual: open Loom Data Optimization status." +:+ nl +:+
  "- `claudenotes`: Open Claude's Dev Notes." +:+ nl +:+
  "- `swarmanalytics`: Open Swarm Analytics Dashboard." +:+ nl +:+
  "- `swarmpilot`: Open Swarm Piloting Guide." +:+ nl +:+
  "- `newidea`: Get help on how to input new idea for AI analysis." +:+ nl +:+
  "- `refactor_code`: Get AI-driven refactoring suggestions for current code context." +:+ nl +:+
  "- `takesnapshot <description>`: Save current app state for later restore." +:+ nl +:+
  "- `restoresnapshots`: View and restore previous app states." +:+ nl +:+
  "- `startlive`: Start AI live audio conversation." +:+ nl +:+
  "- `endlive`: End AI live audio conversation." +:+ nl +:+
  "- `jailbreak_protocol`: Initiate the Easter egg sequence." +:+
  "- Keyboard shortcuts: Ctrl+L (Clear), Ctrl+K (Toggle Looking Glass), Ctrl+M (Mute/Unmute), Esc (Close Menus).".

(** Lines 303-324: the empty-command guard, the echo of the command, the
    "NLU Processing" notice, and the suspension at the classifier call. *)
Definition handleCommandSubmit_enter (rawCommand : jsval) : M unit :=
  match rawCommand with
  | Some (JStr raw) =>
      if String.eqb (trim raw) "" then mret ()
      else
        output "cmd-" "USER" ("> " +:+ raw) false command;;
        setCommandInput "";;
        setLoading true;;
        output "nlu-proc-" "SYSTEM" "NLU Processing... Analyzing intent and nuance."
          true nlu_processing;;
        modify (with_pending (λ q, q ++ [raw]))
  | None | Some JNull => throw (typeError_read "trim")
  | Some _ => throw (typeError_call "rawCommand.trim")
  end.

(** [case 'trigger_snapshot_action'] (lines 393-428) *)
Definition snapshotAction (parameters : jsval) (rawCommand : string) : M unit :=
  let snapshotAction := optional_member parameters "action" in
  if strict_equals snapshotAction "take_snapshot" then
    let description := trim (remove_first "take snapshot" rawCommand) in
    if String.eqb description "" then
      output "snapshot-fail-" "SYSTEM"
        "Error: Please provide a description for the snapshot. E.g., `take snapshot initial setup`"
        true error
    else
      lookingGlass (TakeSnapshot description);;
      output "snapshot-taken-" "SYSTEM"
        ("Snapshot '" +:+ description +:+ "' queued for saving.") true system_message
  else if strict_equals snapshotAction "restore_snapshot_list" then
    lookingGlass ShowSnapshotList;;
    output "snapshot-list-" "SYSTEM" "Displaying available snapshots in Looking Glass."
      true system_message
  else mret ().

(** [case 'switch_profile'] (lines 429-462) *)
Definition switchProfile (parameters : jsval) : M unit :=
  let profileId := optional_member parameters "profile_id" in
  match find (λ p, strict_equals profileId (UserProfile.id p)) USER_PROFILES with
  | Some newProfile =>
      setCurrentUserProfile newProfile;;
      output "profile-switch-" "SYSTEM"
        ("User profile switched to: " +:+ UserProfile.name newProfile +:+ " ("
           +:+ UserProfile.avatar newProfile +:+ ").")
        true system_message;;
      show_panel (ProfileCard newProfile) "User Profile: Active"
  | None =>
      output "profile-err-" "SYSTEM"
        ("Error: Profile '" +:+ toString profileId +:+ "' not found. Available profiles: "
           +:+ String.concat ", " (map UserProfile.id USER_PROFILES) +:+ ".")
        true error
  end.

(** [case 'trigger_conceptual_backend'] (lines 485-504).
    [handleRefactorCode()] is not awaited either; what it does after its
    own [await] only appends to the sink and clears [loading], which the
    caller's [finally] does as well, so it is run in place. *)
Definition conceptualBackend (parameters : jsval) : M unit :=
  let scriptName := optional_member parameters "script_name" in
  if strict_equals scriptName "foxmeditation" then handleFoxMeditation
  else if strict_equals scriptName "sovereignbrain" then handleSovereignBrain
  else if strict_equals scriptName "autoclean" then handleAutoClean
  else if strict_equals scriptName "loom_optimize" then handleLoomDataOptimization
  else if strict_equals scriptName "claudenotes" then handleClaudeNotes
  else if strict_equals scriptName "swarmanalytics" then handleSwarmAnalytics
  else if strict_equals scriptName "swarmpilot" then handleSwarmPilot
  else if strict_equals scriptName "refactor_code" then unawaited handleRefactorCode
  else if strict_equals scriptName "jailbreak_protocol" then
    unawaited (handleCommandSubmit_enter scriptName)
  else if strict_equals scriptName "nlu_status" then handleNLUStatus
  else
    output "err-script-" "SYSTEM"
      ("Conceptual script '" +:+ toString scriptName +:+ "' not recognized or handled.")
      true error.

(** Lines 338-552: the clarification short-circuit and the [switch]. *)
Definition dispatch (nluResult : json) (rawCommand : string) : M unit :=
  clarificationNeeded ← lift (member nluResult "clarificationNeeded");
  if truthy clarificationNeeded then
    clarificationMessage ← lift (member nluResult "clarificationMessage");
    output "clarify-" "SYSTEM"
      ("Clarification needed: "
         +:+ or_else clarificationMessage "Please provide more details.")
      true nlu_clarification
  else
    intent ← lift (member nluResult "intent");
    parameters ← lift (member nluResult "parameters");
    nuance ← lift (member nluResult "nuance");
    if strict_equals intent "clear" then clearTerminal
    else if strict_equals intent "help" then
      output "help-" "SYSTEM" helpText true system_message
    else if strict_equals intent "newidea_init_prompt" then
      output "newidea-prompt-" "SYSTEM"
        "Please type your new idea for AI analysis. Use the format: `new idea: <description>`."
        true system_message
    else if strict_equals intent "trigger_snapshot_action" then
      snapshotAction parameters rawCommand
    else if strict_equals intent "switch_profile" then switchProfile parameters
    else if strict_equals intent "claudenotes" then handleClaudeNotes
    else if strict_equals intent "swarmanalytics" then handleSwarmAnalytics
    else if strict_equals intent "swarmpilot" then handleSwarmPilot
    else if strict_equals intent "nlu_status" then handleNLUStatus
    else if strict_equals intent "generate_idea" then
      handleNewIdea (optional_member parameters "description") nuance
    else if strict_equals intent "ask_ai" then
      handleAIGeneralQuery (optional_member parameters "query") nuance
    else if strict_equals intent "trigger_conceptual_backend" then
      conceptualBackend parameters
    else if strict_equals intent "start_live_session" then
      if seen_liveSessionActive r then
        output "err-" "SYSTEM"
          "Error: Live session already active. Use `endlive` to stop." true error
      else startLiveConversation
    else if strict_equals intent "end_live_session" then
      if negb (seen_liveSessionActive r) then
        output "err-" "SYSTEM"
          "Error: No live session active. Use `startlive` to begin." true error
      else endLiveConversation
    else if strict_equals intent "play_fox_hunt" then
      unawaited (handleCommandSubmit_enter (optional_member parameters "action"))
    else if strict_equals intent "jailbreak_protocol" then
      unawaited (handleCommandSubmit_enter (Some (JStr "jailbreak_protocol")))
    else
      output "nlu-unknown-" "SYSTEM"
        ("NLU could not confidently determine intent for " +:+ dq +:+ rawCommand
           +:+ dq +:+ ". Please try rephrasing or use 'help'.")
        true nlu_clarification.

(** Lines 326-565: what runs once the classifier has answered. *)
Definition handleCommandSubmit_resume (rawCommand : string) : M unit :=
  try_finally
    (try_catch
       (nluResult ← analyzeNaturalLanguageCommand rawCommand;
        intent ← lift (member nluResult "intent");
        parameters ← lift (member nluResult "parameters");
        nuance ← lift (member nluResult "nuance");
        output "nlu-res-" "SYSTEM"
          ("NLU Result: Intent: " +:+ dq +:+ toString intent +:+ dq
             +:+ match parameters with
                 | Some p => if truthy parameters
                             then ", Params: " +:+ JSON_stringify p else ""
                 | None => ""
                 end
             +:+ (if truthy nuance
                  then ", Nuance: " +:+ dq +:+ toString nuance +:+ dq else ""))
          true nlu_processing;;
        dispatch nluResult rawCommand)
       (λ message,
          output "err-" "SYSTEM" ("Error processing command: " +:+ message) true error))
    (setLoading false).

(** The event loop: suspended invocations resume one after the other until
    none is left.  [fuel] bounds the number of resumptions; [None] means
    that invocations were still pending when it ran out. *)
Fixpoint settle (fuel : nat) (st : State) : option State :=
  match pending st with
  | [] => Some st
  | rawCommand :: rest =>
      match fuel with
      | O => None
      | S fuel' =>
          settle fuel'
            (snd (handleCommandSubmit_resume rawCommand (with_pending (λ _, rest) st)))
      end
  end.

(** A command submitted from the input surface, run to quiescence. *)
Definition handleCommandSubmit (fuel : nat) (rawCommand : string) (st : State) : option State :=
  settle fuel (snd (unawaited (handleCommandSubmit_enter (Some (JStr rawCommand))) st)).

(** *** The live-message handler, the snapshot handle and the restore
    effect *)

(** [setAudioQueue((prev) => [...prev, chunk])] *)
Definition pushAudio (chunk : string) : M unit :=
  modify (with_view (λ v, view_audioQueue (audioQueue v ++ [chunk]) v)).

Fixpoint drop_prefix (p s : string) : option string :=
  match p, s with
  | EmptyString, _ => Some s
  | String c p', String d s' => if Ascii.eqb c d then drop_prefix p' s' else None
  | String _ _, EmptyString => None
  end.

(** [s.startsWith(p)] *)
Definition startsWith (s p : string) : bool :=
  match drop_prefix p s with Some _ => true | None => false end.

(** [s.replace(/^(AI|USER): /, '')] *)
Definition strip_speaker (s : string) : string :=
  match drop_prefix "AI: " s, drop_prefix "USER: " s with
  | Some rest, _ => rest
  | None, Some rest => rest
  | None, None => s
  end.

(** [handleLiveMessage] (lines 1166-1222).  The callback closes over the
    [liveTranscript] of the render that created it, here [seen]. *)
Definition handleLiveMessage (seen : option string) (message : LiveServerMessage)
    : M unit :=
  let content := serverContent message in
  (* message.serverContent?.modelTurn?.parts[0]?.inlineData?.data *)
  match content with
  | Some {| modelTurn := Some ({| inlineData := Some blob |} :: _) |} =>
      if String.eqb (Blob.data blob) "" then mret ()
      else pushAudio (Blob.data blob)
  | _ => mret ()
  end;;
  match content with
  | Some {| outputTranscription := Some t |} =>
      if String.eqb (Transcription.text t) "" then mret ()
      else setLiveTranscript (Some ("AI: " +:+ Transcription.text t))
  | _ => mret ()
  end;;
  match content with
  | Some {| inputTranscription := Some t |} =>
      if String.eqb (Transcription.text t) "" then mret ()
      else setLiveTranscript (Some ("USER: " +:+ Transcription.text t))
  | _ => mret ()
  end;;
  match content with
  | Some {| turnComplete := Some true |} =>
      match seen with
      | Some liveTranscript =>
          if String.eqb liveTranscript "" then mret ()
          else
            output "live-"
              (if startsWith liveTranscript "AI:" then "AI" else "USER")
              (strip_speaker liveTranscript) true ai_response
      | None => mret ()
      end;;
      setLiveTranscript None
  | _ => mret ()
  end;;
  match content with
  | Some {| interrupted := Some true |} =>
      setIsInterrupted true;;
      setLiveTranscript (Some "Conversation interrupted.");;
      output "interrupted-" "SYSTEM" "Live conversation interrupted by server."
        true system_message
  | _ => mret ()
  end.

(** [getTerminalState] of the imperative handle (lines 90-97); the handle
    is rebuilt on every render, so it reads the current cells. *)
Definition getTerminalState (st : State) : TerminalState :=
  {| ts_terminalOutput := terminalOutput (view st);
     ts_currentUserProfile := currentUserProfile (view st);
     ts_liveSessionActive := liveSessionActive (view st) |}.

(** The effect that applies [initialStateFromSnapshot] (lines 100-124). *)
Definition restoreFromSnapshot (initialStateFromSnapshot : option TerminalState)
    : M unit :=
  match initialStateFromSnapshot with
  | Some snapshot =>
      setTerminalOutput (λ _, ts_terminalOutput snapshot);;
      setCurrentUserProfile (ts_currentUserProfile snapshot);;
      setLiveSessionActive (ts_liveSessionActive snapshot);;
      setCommandInput "";;
      setLoading false;;
      setLiveTranscript None;;
      setAudioQueue [];;
      setIsInterrupted false;;
      (if ts_liveSessionActive snapshot then endLiveConversation else mret ());;
      output "system-restore-" "SYSTEM" "Terminal state restored from snapshot."
        true system_message
  | None => mret ()
  end.

End Handlers.
End TerminalView.

Import TerminalView.

(** ** Results that make the dispatcher submit a command again

    The three branches of the [switch] that call [handleCommandSubmit]:
    lines 498, 536 and 539. *)

Section Reentry.
Context `{Host}.
Import JS.

Definition reentrant (nluResult : json) : bool :=
  let intent := optional_member (Some nluResult) "intent" in
  strict_equals intent "play_fox_hunt"
  || strict_equals intent "jailbreak_protocol"
  || (strict_equals intent "trigger_conceptual_backend"
      && strict_equals (parameter nluResult "script_name") "jailbreak_protocol").

End Reentry.


(** ** A reference host

    An executable host for the examples: ASCII case folding and trimming,
    and a [JSON.parse] for the fragment of JSON without escape sequences.
    Outside that fragment it reports a syntax error.  It is used only to
    run concrete inputs; no theorem below depends on it. *)

Module ReferenceHost.

Definition lower_char (c : ascii) : ascii :=
  let n := N_of_ascii c in
  if ((65 <=? n) && (n <=? 90))%N then ascii_of_N (n + 32) else c.

Fixpoint lower (s : string) : string :=
  match s with
  | EmptyString => EmptyString
  | String c rest => String (lower_char c) (lower rest)
  end.

Definition is_space (c : ascii) : bool :=
  let n := N_of_ascii c in
  ((n =? 32) || ((9 <=? n) && (n <=? 13)))%N.

Fixpoint trim_start (l : list ascii) : list ascii :=
  match l with
  | c :: rest => if is_space c then trim_start rest else l
  | [] => []
  end.

Definition trim_spaces (s : string) : string :=
  string_of_list_ascii
    (rev (trim_start (rev (trim_start (list_ascii_of_string s))))).

Definition is_digit (c : ascii) : bool :=
  let n := N_of_ascii c in ((48 <=? n) && (n <=? 57))%N.

Definition is_number_char (c : ascii) : bool :=
  is_digit c || Ascii.eqb c "-" || Ascii.eqb c "+" || Ascii.eqb c "."
  || Ascii.eqb c "e" || Ascii.eqb c "E".

(** A literal denotes zero when its mantissa has no digit but [0]. *)
Fixpoint mantissa_nonzero (l : list ascii) : bool :=
  match l with
  | [] => false
  | c :: rest =>
      if Ascii.eqb c "e" || Ascii.eqb c "E" then false
      else (is_digit c && negb (Ascii.eqb c "0")) || mantissa_nonzero rest
  end.

Fixpoint take_while (p : ascii → bool) (l : list ascii) : list ascii * list ascii :=
  match l with
  | c :: rest =>
      if p c then let '(a, b) := take_while p rest in (c :: a, b) else ([], l)
  | [] => ([], [])
  end.

Definition skip_space (l : list ascii) : list ascii := snd (take_while is_space l).

Definition quote : ascii := ascii_of_nat 34.

(** A string token: the characters up to the closing quote, none of them
    a backslash. *)
Definition string_token (l : list ascii) : option (string * list ascii) :=
  let '(body, rest) := take_while (λ c, negb (Ascii.eqb c quote)) l in
  match rest with
  | _ :: rest' =>
      if existsb (λ c, Ascii.eqb c "\") body then None
      else Some (string_of_list_ascii body, rest')
  | [] => None
  end.

Fixpoint strip_prefix (p l : list ascii) : option (list ascii) :=
  match p, l with
  | [], _ => Some l
  | c :: p', d :: l' => if Ascii.eqb c d then strip_prefix p' l' else None
  | _ :: _, [] => None
  end.

(** Later duplicates of a key replace the value and keep the position. *)
Fixpoint set_member (k : string) (v : json) (ms : list (string * json)) : list (string * json) :=
  match ms with
  | [] => [(k, v)]
  | (k', v') :: rest =>
      if String.eqb k k' then (k, v) :: rest else (k', v') :: set_member k v rest
  end.

Fixpoint value (fuel : nat) (l : list ascii) : option (json * list ascii) :=
  match fuel with
  | O => None
  | S fuel' =>
      match skip_space l with
      | [] => None
      | c :: rest =>
          if Ascii.eqb c "{" then
            match skip_space rest with
            | d :: rest' =>
                if Ascii.eqb d "}" then Some (JObj [], rest')
                else members fuel' [] (d :: rest')
            | [] => None
            end
          else if Ascii.eqb c "[" then
            match skip_space rest with
            | d :: rest' =>
                if Ascii.eqb d "]" then Some (JArr [], rest')
                else elements fuel' [] (d :: rest')
            | [] => None
            end
          else if Ascii.eqb c quote then
            match string_token rest with
            | Some (s, rest') => Some (JStr s, rest')
            | None => None
            end
          else if is_digit c || Ascii.eqb c "-" then
            let '(lit, rest') := take_while is_number_char (c :: rest) in
            Some (JNum (string_of_list_ascii lit), rest')
          else
            match strip_prefix (list_ascii_of_string "true") (c :: rest),
                  strip_prefix (list_ascii_of_string "false") (c :: rest),
                  strip_prefix (list_ascii_of_string "null") (c :: rest) with
            | Some rest', _, _ => Some (JBool true, rest')
            | _, Some rest', _ => Some (JBool false, rest')
            | _, _, Some rest' => Some (JNull, rest')
            | _, _, _ => None
            end
      end
  end
with members (fuel : nat) (acc : list (string * json)) (l : list ascii)
    : option (json * list ascii) :=
  match fuel with
  | O => None
  | S fuel' =>
      match skip_space l with
      | c :: rest =>
          if Ascii.eqb c quote then
            match string_token rest with
            | Some (k, rest1) =>
                match skip_space rest1 with
                | colon :: rest2 =>
                    if Ascii.eqb colon ":" then
                      match value fuel' rest2 with
                      | Some (v, rest3) =>
                          match skip_space rest3 with
                          | sep :: rest4 =>
                              if Ascii.eqb sep "," then
                                members fuel' (set_member k v acc) rest4
                              else if Ascii.eqb sep "}" then
                                Some (JObj (set_member k v acc), rest4)
                              else None
                          | [] => None
                          end
                      | None => None
                      end
                    else None
                | [] => None
                end
            | None => None
            end
          else None
      | [] => None
      end
  end
with elements (fuel : nat) (acc : list json) (l : list ascii)
    : option (json * list ascii) :=
  match fuel with
  | O => None
  | S fuel' =>
      match value fuel' l with
      | Some (v, rest) =>
          match skip_space rest with
          | sep :: rest' =>
              if Ascii.eqb sep "," then elements fuel' (acc ++ [v]) rest'
              else if Ascii.eqb sep "]" then Some (JArr (acc ++ [v]), rest')
              else None
          | [] => None
          end
      | None => None
      end
  end.

Definition parse (text : string) : Completion json :=
  let l := list_ascii_of_string text in
  match value (2 * length l + 2) l with
  | Some (v, rest) =>
      match skip_space rest with
      | [] => Normal v
      | _ :: _ => Throw "Unexpected non-whitespace character after JSON"
      end
  | None => Throw "Unexpected token in JSON"
  end.

Fixpoint stringify (v : json) : string :=
  match v with
  | JNull => "null"
  | JBool true => "true"
  | JBool false => "false"
  | JNum literal => literal
  | JStr s => dq +:+ s +:+ dq
  | JArr items =>
      "[" +:+ (fix go (l : list json) : string :=
                 match l with
                 | [] => ""
                 | x :: rest =>
                     stringify x +:+ match rest with [] => "" | _ :: _ => "," +:+ go rest end
                 end) items +:+ "]"
  | JObj ms =>
      "{" +:+ (fix go (l : list (string * json)) : string :=
                 match l with
                 | [] => ""
                 | (k, x) :: rest =>
                     dq +:+ k +:+ dq +:+ ":" +:+ stringify x
                       +:+ match rest with [] => "" | _ :: _ => "," +:+ go rest end
                 end) ms +:+ "}"
  end.

#[global] Instance host : Host := {|
  JSON_parse := parse;
  JSON_stringify := stringify;
  toLowerCase := lower;
  trim := trim_spaces;
  substring := λ from to s, String.substring from (to - from) s;
  number_truthy := λ literal, mantissa_nonzero (list_ascii_of_string literal);
  number_toString := λ literal, literal;
  typeError_read := λ p, "Cannot read properties of undefined (reading '" +:+ p +:+ "')";
  typeError_call := λ p, p +:+ " is not a function";
  toLocaleTimeString := λ t, pretty t
|}.

(** [{"k":"v", ...}] written without quoting noise. *)
Definition q (s : string) : string := dq +:+ s +:+ dq.

End ReferenceHost.

(** ** Concrete runs

    Worlds, renders and values for running the definitions on explicit
    inputs with the reference host. *)

Module Scenario.
Import ReferenceHost.

Definition clock (k : nat) : Z := 1700000000000 + Z.of_nat k.

(** Every completion call returns a response with this text. *)
Definition replying (text : string) : World :=
  {| Date_now := clock;
     models_generateContent := λ _, Normal (Some text);
     live_connect := λ _, Normal ();
     getUserMedia := λ _, Normal () |}.

(** Every completion call throws an error with this message. *)
Definition failing (message : string) : World :=
  {| Date_now := clock;
     models_generateContent := λ _, Throw message;
     live_connect := λ _, Normal ();
     getUserMedia := λ _, Normal () |}.

(** [{"intent": "<intent>"}] *)
Definition intent_only (intent : string) : string :=
  "{" +:+ q "intent" +:+ ":" +:+ q intent +:+ "}".

(** [{"intent": "<intent>", "parameters": {"<name>": "<value>"}}] *)
Definition intent_with (intent name value : string) : string :=
  "{" +:+ q "intent" +:+ ":" +:+ q intent +:+ "," +:+ q "parameters" +:+ ":{"
    +:+ q name +:+ ":" +:+ q value +:+ "}}".

Definition live (st : State) : State := with_view (view_liveSessionActive true) st.

(** Renders of the freshly mounted component, with and without the API. *)
Definition active : Render := render_of true true true initial_state.
Definition inactive_render : Render := render_of false false true initial_state.

Definition snapshot_of (id description : string) (st : State)
    : AppSnapshot.t (option Panel) :=
  AppSnapshot.mk id "2026-01-01T00:00:00.000Z" description
    {| currentView := terminal;
       currentUserProfileId := UserProfile.id (currentUserProfile (view st));
       lookingGlassState :=
         {| isVisible := false; position := (50, 50)%Z; size := (600, 400)%Z;
            content := None; title := "Looking Glass" |} |}
    {| ts_terminalOutput := terminalOutput (view st);
       ts_currentUserProfile := currentUserProfile (view st);
       ts_liveSessionActive := liveSessionActive (view st) |}
    [].

(** The same snapshot with a panel open in the Looking Glass. *)
Definition showing (panel : Panel) (s : AppSnapshot.t (option Panel))
    : AppSnapshot.t (option Panel) :=
  AppSnapshot.mk (AppSnapshot.id s) (AppSnapshot.timestamp s)
    (AppSnapshot.description s)
    {| currentView := currentView (AppSnapshot.appState s);
       currentUserProfileId := currentUserProfileId (AppSnapshot.appState s);
       lookingGlassState :=
         {| isVisible := true; position := (50, 50)%Z; size := (600, 400)%Z;
            content := Some panel; title := "Looking Glass" |} |}
    (AppSnapshot.terminalState s) (AppSnapshot.conceptualFileContents s).

(** How the runs serialise the Looking Glass content: [null] as [null],
    an element as the plain object that is left of it once its type, a
    function, is dropped. *)
Definition content_json (c : option Panel) : Completion jsval :=
  match c with
  | None => Normal (Some JNull)
  | Some _ => Normal (Some (JObj [("key", JNull); ("ref", JNull); ("props", JObj [])]))
  end.

(** The record a snapshot without a panel is stored as. *)
Definition record_of (id description : string) (st : State) : SnapshotService.Stored :=
  AppSnapshot.mk id "2026-01-01T00:00:00.000Z" description
    {| currentView := terminal;
       currentUserProfileId := UserProfile.id (currentUserProfile (view st));
       lookingGlassState :=
         {| isVisible := false; position := (50, 50)%Z; size := (600, 400)%Z;
            content := Some JNull; title := "Looking Glass" |} |}
    {| ts_terminalOutput := terminalOutput (view st);
       ts_currentUserProfile := currentUserProfile (view st);
       ts_liveSessionActive := liveSessionActive (view st) |}
    [].




(** The connection is made, the microphone is refused. *)
Definition no_microphone : World :=
  {| Date_now := clock;
     models_generateContent := λ _, Normal (Some "");
     live_connect := λ _, Normal ();
     getUserMedia := λ _, Throw "Permission denied" |}.

(** Live messages: a transcription of the model's speech, the end of a
    turn, an interruption. *)
Definition said (text : string) : LiveServerContent :=
  {| modelTurn := None; interrupted := None;
     outputTranscription := Some (Transcription.mk text false);
     inputTranscription := None; turnComplete := None |}.

Definition turn_done : LiveServerContent :=
  {| modelTurn := None; interrupted := None;
     outputTranscription := None; inputTranscription := None;
     turnComplete := Some true |}.

Definition interruption : LiveServerContent :=
  {| modelTurn := Some [ {| inlineData := Some (Blob.mk "AAAA" "audio/pcm;rate=24000");
                            part_text := None |} ];
     interrupted := Some true;
     outputTranscription := None; inputTranscription := None;
     turnComplete := None |}.

(** The end of a turn that is also an interruption. *)
Definition turn_cut : LiveServerContent :=
  {| modelTurn := None; interrupted := Some true;
     outputTranscription := None; inputTranscription := None;
     turnComplete := Some true |}.

Definition carrying (content : LiveServerContent) : LiveServerMessage :=
  {| serverContent := Some content |}.


End Scenario.

(** * Properties *)

(** ** The base64 helpers *)

Section Base64Facts.
Import GeminiService.

Lemma list_ind3 {A} (P : list A → Prop) :
  P [] → (∀ a, P [a]) → (∀ a b, P [a; b]) →
  (∀ a b c l, P l → P (a :: b :: c :: l)) →
  ∀ l, P l.
Proof.
  intros H0 H1 H2 H3.
  assert (∀ l, P l ∧ (∀ a, P (a :: l)) ∧ (∀ a b, P (a :: b :: l))) as Hall.
  { induction l as [|x l (IH0 & IH1 & IH2)]; [by auto|].
    repeat split; [apply IH1|intros; apply IH2|intros; by apply H3]. }
  intros l. apply Hall.
Qed.

Lemma small_N_cases (p : N → bool) (i : N) :
  (i < 64)%N →
  forallb p (map N.of_nat (seq 0 64)) = true → p i = true.
Proof.
  intros Hi Hp. rewrite List.forallb_forall in Hp. apply Hp.
  apply List.in_map_iff. exists (N.to_nat i). split; [lia|].
  apply List.in_seq. lia.
Qed.

Lemma char_sextet_sextet_char i :
  (i < 64)%N → char_sextet (sextet_char i) = Some i.
Proof.
  intros Hi.
  pose proof (small_N_cases
    (λ i, match char_sextet (sextet_char i) with
          | Some j => N.eqb j i
          | None => false
          end) i Hi eq_refl) as H.
  simpl in H. destruct (char_sextet (sextet_char i)); [|done].
  apply N.eqb_eq in H. by subst.
Qed.

Lemma sextet_char_plain i :
  (i < 64)%N →
  is_ascii_whitespace (sextet_char i) = false
  ∧ Ascii.eqb (sextet_char i) pad_char = false.
Proof.
  intros Hi.
  pose proof (small_N_cases
    (λ i, negb (is_ascii_whitespace (sextet_char i))
          && negb (Ascii.eqb (sextet_char i) pad_char)) i Hi eq_refl) as H.
  simpl in H. apply andb_true_iff in H as [H1 H2].
  by rewrite negb_true_iff in H1, H2.
Qed.

(** Division and remainder by the constants of the codec are linear
    once quotient and remainder are named. *)
Local Ltac divmod_lia := zify; Z.to_euclidean_division_equations; lia.

Lemma group3_roundtrip (a b c : N) :
  (a < 256 → b < 256 → c < 256 →
   let n := a * 65536 + b * 256 + c in
   let m := ((n / 262144 * 64 + (n / 4096) mod 64) * 64 + (n / 64) mod 64) * 64
            + n mod 64 in
   m / 65536 = a ∧ (m / 256) mod 256 = b ∧ m mod 256 = c)%N.
Proof.
  intros Ha Hb Hc n m.
  assert (m = n) as -> by (subst m n; divmod_lia).
  subst n. repeat split; divmod_lia.
Qed.

Lemma group2_roundtrip (a b : N) :
  (a < 256 → b < 256 →
   let n := (a * 256 + b) * 4 in
   let m := ((n / 4096 * 64 + (n / 64) mod 64) * 64 + n mod 64) / 4 in
   m / 256 = a ∧ m mod 256 = b)%N.
Proof.
  intros Ha Hb n m.
  assert (m = a * 256 + b)%N as -> by (subst m n; divmod_lia).
  split; divmod_lia.
Qed.

Lemma group1_roundtrip (a : N) :
  (a < 256 →
   let n := a * 16 in
   (n / 64 * 64 + n mod 64) / 16 = a)%N.
Proof. intros Ha n. subst n. divmod_lia. Qed.

Lemma octets_of_sextets_of_octets l :
  Forall octet l → octets_of_sextets (sextets_of_octets l) = l.
Proof.
  induction l as [|a|a b|a b c l IH] using list_ind3; intros Hl.
  - done.
  - apply List.Forall_cons_iff in Hl as [Ha _].
    cbn [sextets_of_octets octets_of_sextets].
    by rewrite (group1_roundtrip a Ha).
  - apply List.Forall_cons_iff in Hl as [Ha Hl]. apply List.Forall_cons_iff in Hl as [Hb _].
    cbn [sextets_of_octets octets_of_sextets].
    by destruct (group2_roundtrip a b Ha Hb) as [-> ->].
  - apply List.Forall_cons_iff in Hl as [Ha Hl]. apply List.Forall_cons_iff in Hl as [Hb Hl].
    apply List.Forall_cons_iff in Hl as [Hc Hl].
    cbn [sextets_of_octets octets_of_sextets].
    destruct (group3_roundtrip a b c Ha Hb Hc) as (-> & -> & ->).
    by rewrite IH.
Qed.

Lemma sextets_of_octets_small l :
  Forall octet l → Forall (λ i, (i < 64)%N) (sextets_of_octets l).
Proof.
  induction l as [|a|a b|a b c l IH] using list_ind3; intros Hl.
  - constructor.
  - apply List.Forall_cons_iff in Hl as [Ha _]. unfold octet in Ha.
    cbn [sextets_of_octets]. repeat constructor; divmod_lia.
  - apply List.Forall_cons_iff in Hl as [Ha Hl]. apply List.Forall_cons_iff in Hl as [Hb _].
    unfold octet in Ha, Hb.
    cbn [sextets_of_octets]. repeat constructor; divmod_lia.
  - apply List.Forall_cons_iff in Hl as [Ha Hl]. apply List.Forall_cons_iff in Hl as [Hb Hl].
    apply List.Forall_cons_iff in Hl as [Hc Hl]. unfold octet in Ha, Hb, Hc.
    cbn [sextets_of_octets].
    repeat (apply List.Forall_cons_iff; split); [divmod_lia..|by apply IH].
Qed.

Lemma sextets_of_chars_of_sextets l :
  Forall (λ i, (i < 64)%N) l → sextets_of_chars (map sextet_char l) = Some l.
Proof.
  induction 1 as [|i l Hi _ IH]; [done|].
  cbn [map sextets_of_chars]. by rewrite char_sextet_sextet_char, IH.
Qed.

Lemma padding_cases l :
  padding l = [] ∨ padding l = [pad_char] ∨ padding l = [pad_char; pad_char].
Proof. induction l using list_ind3; cbn [padding]; auto. Qed.

(** The encoder's output has a length divisible by four, and what is
    left of it without the padding never has length 1 modulo 4. *)
Lemma encoded_length l :
  ((length (sextets_of_octets l) + length (padding l)) mod 4 = 0
   ∧ length (sextets_of_octets l) mod 4 ≠ 1)%nat.
Proof.
  induction l as [|a|a b|a b c l [IH1 IH2]] using list_ind3;
    [by vm_compute..|].
  cbn [sextets_of_octets padding length].
  split; zify; Z.to_euclidean_division_equations; lia.
Qed.

Lemma keep_non_whitespace data :
  Forall (λ c, is_ascii_whitespace c = false) data →
  filter (λ c, is_ascii_whitespace c = false) data = data.
Proof.
  induction 1 as [|c data Hc _ IH]; [done|].
  rewrite filter_cons_True by done. by rewrite IH.
Qed.

Lemma strip_padding_encoded body pads :
  Forall (λ c, Ascii.eqb c pad_char = false) body →
  pads = [] ∨ pads = [pad_char] ∨ pads = [pad_char; pad_char] →
  (length (body ++ pads) mod 4 = 0)%nat →
  strip_padding (body ++ pads) = body.
Proof.
  intros Hbody Hpads Hlen. unfold strip_padding.
  rewrite Hlen. cbn [Nat.eqb].
  assert (∀ q r, rev body = q :: r → Ascii.eqb q pad_char = false) as Hlast.
  { intros q r Hrev. rewrite List.Forall_forall in Hbody. apply Hbody.
    apply List.in_rev. rewrite Hrev. by left. }
  destruct Hpads as [->|[->| ->]].
  - rewrite app_nil_r. destruct (rev body) as [|q [|q' r]] eqn:Hrev; [done|..];
      by rewrite (Hlast _ _ eq_refl).
  - rewrite rev_app_distr. cbn [rev app].
    destruct (rev body) as [|q r] eqn:Hrev.
    + apply (f_equal (@rev ascii)) in Hrev. rewrite rev_involutive in Hrev.
      by subst.
    + rewrite Ascii.eqb_refl, (Hlast _ _ eq_refl).
      change (rev r ++ [q])%list with (rev (q :: r)).
      rewrite <- Hrev. by rewrite rev_involutive.
  - rewrite rev_app_distr. cbn [rev app].
    destruct (rev body) as [|q r] eqn:Hrev.
    + apply (f_equal (@rev ascii)) in Hrev. rewrite rev_involutive in Hrev.
      by subst.
    + rewrite !Ascii.eqb_refl. rewrite <- Hrev. by rewrite rev_involutive.
Qed.

Lemma atob_btoa binary : atob (btoa binary) = Normal binary.
Proof.
  unfold atob, btoa.
  set (octets := map N_of_ascii (list_ascii_of_string binary)).
  assert (Forall octet octets) as Hoct.
  { subst octets. apply List.Forall_forall. intros n [c [<- _]]%List.in_map_iff.
    apply N_ascii_bounded. }
  pose proof (sextets_of_octets_small _ Hoct) as Hsmall.
  set (body := map sextet_char (sextets_of_octets octets)).
  assert (Forall (λ c, is_ascii_whitespace c = false
                       ∧ Ascii.eqb c pad_char = false) body) as Hbody.
  { subst body. apply List.Forall_forall. intros c [i [<- Hi]]%List.in_map_iff.
    rewrite List.Forall_forall in Hsmall. by apply sextet_char_plain, Hsmall. }
  destruct (encoded_length octets) as [Hlen4 Hlen1].
  rewrite list_ascii_of_string_of_list_ascii.
  rewrite keep_non_whitespace.
  2:{ apply List.Forall_app. split.
      - eapply List.Forall_impl; [|exact Hbody]. by intros c [? ?].
      - destruct (padding_cases octets) as [->|[->| ->]]; by repeat constructor. }
  rewrite strip_padding_encoded.
  - subst body. rewrite length_map.
    destruct (Nat.eqb_spec (length (sextets_of_octets octets) mod 4) 1); [done|].
    rewrite sextets_of_chars_of_sextets by done.
    rewrite octets_of_sextets_of_octets by done.
    subst octets. rewrite map_map.
    rewrite (map_ext _ id) by (intros c; apply ascii_N_embedding).
    by rewrite map_id, string_of_list_ascii_of_string.
  - eapply List.Forall_impl; [|exact Hbody]. by intros c [? ?].
  - apply padding_cases.
  - rewrite length_app. subst body. by rewrite length_map.
Qed.

Lemma append_cons c (s t : string) : String c s +:+ t = String c (s +:+ t).
Proof. reflexivity. Qed.

Lemma append_empty_r (s : string) : s +:+ "" = s.
Proof. induction s as [|c s IH]; [done|]. by rewrite append_cons, IH. Qed.

Lemma append_assoc (s t u : string) : (s +:+ t) +:+ u = s +:+ (t +:+ u).
Proof. induction s as [|c s IH]; [done|]. by rewrite !append_cons, IH. Qed.

Lemma encode_loop_spec bytes binary :
  encode_loop bytes binary
  = binary +:+ string_of_list_ascii (map fromCharCode bytes).
Proof.
  revert binary. induction bytes as [|b bytes IH]; intros binary.
  - cbn [encode_loop map string_of_list_ascii]. by rewrite append_empty_r.
  - cbn [encode_loop map string_of_list_ascii]. by rewrite IH, append_assoc.
Qed.

Lemma to_uint8_charCode b : to_uint8 (charCodeAt (fromCharCode b)) = b.
Proof. by destruct b. Qed.

Lemma decode_loop_spec bytes :
  decode_loop (string_of_list_ascii (map fromCharCode bytes)) = bytes.
Proof.
  induction bytes as [|b bytes IH]; [done|].
  cbn [map string_of_list_ascii decode_loop].
  by rewrite to_uint8_charCode, IH.
Qed.

Lemma decode_encode (bytes : list byte) :
  decode (encode bytes) = Normal bytes.
Proof.
  unfold decode, encode. rewrite atob_btoa, encode_loop_spec.
  change ("" +:+ ?s) with s. by rewrite decode_loop_spec.
Qed.

(** C9.  The codec helpers are mutually inverse: [decode] returns the
    original bytes on every encoded byte array (it does not throw there),
    and on every string in the image of [encode], encoding the decoded
    bytes gives the string back. *)
Theorem base64_codec_inverse (bytes : list byte) :
  decode (encode bytes) = Normal bytes
  ∧ ∃ decoded,
      decode (encode bytes) = Normal decoded ∧ encode decoded = encode bytes.
Proof.
  split; [apply decode_encode|].
  exists bytes. by rewrite decode_encode.
Qed.

End Base64Facts.


(** ** The snapshot store *)

Section SnapshotFacts.
Context `{Host}.
Import SnapshotService.

Implicit Types (l : list Stored) (k : string).

Lemma others_without k l :
  filter (λ x, AppSnapshot.id x = k) (filter (λ x, AppSnapshot.id x ≠ k) l) = [].
Proof.
  induction l as [|x l IH]; [done|].
  destruct (decide (AppSnapshot.id x = k)) as [Hx|Hx].
  - by rewrite (filter_cons_False (λ x : Stored, AppSnapshot.id x ≠ k)) by auto.
  - rewrite (filter_cons_True (λ x : Stored, AppSnapshot.id x ≠ k)) by done.
    by rewrite filter_cons_False.
Qed.

Lemma others_idempotent k l :
  filter (λ x, AppSnapshot.id x ≠ k) (filter (λ x, AppSnapshot.id x ≠ k) l)
  = filter (λ x, AppSnapshot.id x ≠ k) l.
Proof.
  induction l as [|x l IH]; [done|].
  destruct (decide (AppSnapshot.id x = k)) as [Hx|Hx].
  - by rewrite (filter_cons_False (λ x : Stored, AppSnapshot.id x ≠ k)) by auto.
  - rewrite !(filter_cons_True (λ x : Stored, AppSnapshot.id x ≠ k)) by done.
    by rewrite IH.
Qed.

Lemma others_ids k l :
  NoDup (AppSnapshot.id <$> l) →
  NoDup (AppSnapshot.id <$> filter (λ x, AppSnapshot.id x ≠ k) l)
  ∧ k ∉ AppSnapshot.id <$> filter (λ x, AppSnapshot.id x ≠ k) l.
Proof.
  intros Hl. split.
  - eapply sublist_NoDup; [exact Hl|apply fmap_sublist, sublist_filter].
  - intros (x & -> & [Hx _]%list_elem_of_filter)%list_elem_of_fmap. done.
Qed.

(** A record read back has the fields of the snapshot it was written
    from, the Looking Glass content apart. *)
Lemma stored_fields {Content} (content_json : Content → Completion jsval)
    (s : AppSnapshot.t Content) s' :
  stored content_json s = Normal s' →
  AppSnapshot.id s' = AppSnapshot.id s
  ∧ AppSnapshot.timestamp s' = AppSnapshot.timestamp s
  ∧ AppSnapshot.description s' = AppSnapshot.description s
  ∧ AppSnapshot.terminalState s' = AppSnapshot.terminalState s
  ∧ AppSnapshot.conceptualFileContents s' = AppSnapshot.conceptualFileContents s
  ∧ currentView (AppSnapshot.appState s') = currentView (AppSnapshot.appState s)
  ∧ currentUserProfileId (AppSnapshot.appState s')
    = currentUserProfileId (AppSnapshot.appState s)
  ∧ content_json (content (lookingGlassState (AppSnapshot.appState s)))
    = Normal (content (lookingGlassState (AppSnapshot.appState s'))).
Proof.
  unfold stored. cbv zeta. destruct (content_json _) as [written|message]; [|done].
  by intros [= <-].
Qed.

(** On a store that holds nothing readable the save starts from the
    empty list. *)
Lemma saveSnapshot_fresh {Content} (content_json : Content → Completion jsval)
    (s : AppSnapshot.t Content) s' :
  stored content_json s = Normal s' →
  saveSnapshot content_json true s Absent = (Normal (), Snapshots [s'])
  ∧ saveSnapshot content_json true s Unparseable = (Normal (), Snapshots [s']).
Proof. intros Hs. unfold saveSnapshot. cbn. by rewrite Hs. Qed.

(** A write that fails - [JSON.stringify] throws, or [setItem] does - is
    swallowed and changes nothing. *)
Lemma saveSnapshot_unwritable {Content} (content_json : Content → Completion jsval)
    writable (s : AppSnapshot.t Content) store :
  writable = false ∨ (∃ message, stored content_json s = Throw message) →
  snd (saveSnapshot content_json writable s store) = store.
Proof.
  intros Hfail. unfold saveSnapshot.
  destruct (array_method _ _ _); [|done]. cbn [snd].
  destruct Hfail as [->|[message ->]]; [|done].
  by destruct (stored content_json s).
Qed.

(** C10, as the code has it.  [saveSnapshot] on a stored list returns
    normally, leaves the records with other ids as they were, in the same
    order, and keeps pairwise distinct ids pairwise distinct.  When the
    write succeeds - [JSON.stringify] and [setItem] both return - the
    store then holds exactly one record with the id of [s]: what JSON
    makes of [s].  When the write fails, the error is swallowed and the
    stored list is the one before. *)
Theorem saveSnapshot_upsert {Content} (content_json : Content → Completion jsval)
    writable l (s : AppSnapshot.t Content) :
  ∃ l', saveSnapshot content_json writable s (Snapshots l) = (Normal (), Snapshots l')
        ∧ filter (λ x, AppSnapshot.id x ≠ AppSnapshot.id s) l'
          = filter (λ x, AppSnapshot.id x ≠ AppSnapshot.id s) l
        ∧ (NoDup (AppSnapshot.id <$> l) → NoDup (AppSnapshot.id <$> l'))
        ∧ match stored content_json s with
          | Normal s' =>
              if writable
              then filter (λ x, AppSnapshot.id x = AppSnapshot.id s) l' = [s']
              else l' = l
          | Throw _ => l' = l
          end.
Proof.
  unfold saveSnapshot. cbn [getSnapshots array_method].
  destruct (stored content_json s) as [s'|message] eqn:Hs;
    [destruct writable|]; cbn [saveSnapshots];
    try (exists l; by repeat split).
  destruct (stored_fields _ _ _ Hs) as (Hid & _).
  eexists. split; [reflexivity|]. repeat split.
  - rewrite filter_app, others_idempotent.
    rewrite filter_cons_False by (rewrite Hid; auto).
    by rewrite filter_nil, app_nil_r.
  - intros Hl. destruct (others_ids (AppSnapshot.id s) l Hl) as [Hnd Hnotin].
    rewrite fmap_app. apply list.NoDup_app.
    repeat split; [done| |apply NoDup_singleton].
    intros k Hk ->%list_elem_of_singleton. cbn in Hk. by rewrite Hid in Hk.
  - rewrite filter_app, others_without.
    by rewrite filter_cons_True, filter_nil.
Qed.

End SnapshotFacts.

(** ** The terminal view *)

Section TerminalFacts.
Context `{Host} (w : World) (r : Render).
Import JS TerminalView.

Local Ltac run_monad :=
  unfold output, message, addOutput, setTerminalOutput, tick, log,
    mbind, M_bind, mret, M_ret, lift, modify, throw, try_catch, try_finally.

Lemma output_appends prefix sender text isBot type st :
  ∃ m, output w prefix sender text isBot type st
       = (Normal (), with_view (view_terminalOutput (λ prev, prev ++ [m]))
                       (with_ticks S (with_ticks S st)))
       ∧ ChatMessage.sender m = sender
       ∧ ChatMessage.text m = text
       ∧ ChatMessage.isBot m = isBot
       ∧ ChatMessage.type m = type.
Proof. eexists. split; [reflexivity|]. by cbn. Qed.

Lemma output_appended prefix sender text isBot type st :
  ∃ m, fst (output w prefix sender text isBot type st) = Normal ()
       ∧ appended m st (snd (output w prefix sender text isBot type st))
       ∧ ChatMessage.sender m = sender
       ∧ ChatMessage.text m = text
       ∧ ChatMessage.type m = type.
Proof.
  destruct (output_appends prefix sender text isBot type st)
    as (m & -> & Hs & Ht & _ & Hty).
  exists m. by repeat split.
Qed.

(** C7.  Whatever the sink held, after [clearTerminal] it holds exactly
    one message: the system message "Terminal cleared.". *)
Theorem clearTerminal_single_message (st : State) :
  fst (clearTerminal w st) = Normal ()
  ∧ ∃ m, terminalOutput (view (snd (clearTerminal w st))) = [m]
         ∧ ChatMessage.sender m = "SYSTEM"
         ∧ ChatMessage.text m = "Terminal cleared."
         ∧ ChatMessage.type m = system_message.
Proof. split; [reflexivity|]. eexists. by cbn. Qed.

(** *** The classifier *)

Lemma analyze_inactive rawCommand st :
  inactive r = true →
  analyzeNaturalLanguageCommand w r rawCommand st = (Normal system_error_result, st).
Proof. intros Hoff. unfold analyzeNaturalLanguageCommand. by rewrite Hoff. Qed.

Lemma analyze_active rawCommand st :
  inactive r = false →
  analyzeNaturalLanguageCommand w r rawCommand st
  = (Normal (answer rawCommand (completion_at w st)),
     with_calls (λ l, l ++ [GenerateContent (ClassifyRequest rawCommand)])
       (with_ticks S st)).
Proof.
  intros Hon. unfold analyzeNaturalLanguageCommand, answer, completion_at.
  rewrite Hon. unfold call_generateContent. run_monad. cbn.
  destruct (GeminiService.generateContent _) as [text|message]; [|done].
  destruct (JSON_parse text) as [nluOutput|message]; [|done].
  destruct (member nluOutput "intent") as [intent|message]; [|by destruct nluOutput].
  destruct (member nluOutput "parameters") as [parameters|message]; [done|].
  by destruct nluOutput.
Qed.

Lemma member_of_object v key x :
  optional_member (Some v) key = Some x →
  ∀ key', member v key' = Normal (optional_member (Some v) key').
Proof. by destruct v. Qed.

(** C1.  The classifier always returns a result, it never throws; and
    when the completion call throws, or returns text that [JSON.parse]
    rejects, the result is the fallback: intent "ask_ai", the raw command
    as the query, [clarificationNeeded] true, and a clarification message
    ending in the error text. *)
Theorem classifier_failure_fallback rawCommand st message :
  (∃ result, fst (analyzeNaturalLanguageCommand w r rawCommand st) = Normal result)
  ∧ (inactive r = false →
     completion_at w st = Throw message
     ∨ (∃ text, completion_at w st = Normal text ∧ JSON_parse text = Throw message) →
     ∃ result,
       fst (analyzeNaturalLanguageCommand w r rawCommand st) = Normal result
       ∧ optional_member (Some result) "intent" = Some (JStr "ask_ai")
       ∧ parameter result "query" = Some (JStr rawCommand)
       ∧ optional_member (Some result) "clarificationNeeded" = Some (JBool true)
       ∧ optional_member (Some result) "clarificationMessage"
         = Some (JStr ("NLU failed to parse command. Please rephrase or use 'help'. Error: "
                         +:+ message))).
Proof.
  split.
  - destruct (inactive r) eqn:Hr.
    + rewrite analyze_inactive by done. eauto.
    + rewrite analyze_active by done. eauto.
  - intros Hon Hfail. exists (nlu_failure_result rawCommand message).
    rewrite analyze_active by done. split; [|done].
    cbn [fst]. unfold answer.
    destruct Hfail as [->|(text & -> & ->)]; done.
Qed.

(** C2, as the code has it.  A "trigger_conceptual_backend" result whose
    [script_name] is a string that, lower-cased, is not one of the eleven
    known names is replaced by
    [{intent: "ask_ai", parameters: {query: rawCommand}, nuance: "general",
      commandType: "ai_generate"}];
    likewise a "trigger_snapshot_action" result whose [action] is a
    string outside the two known actions.  When the parameter is missing
    or is not a string, the model's result is returned as it is. *)
Theorem classifier_allow_lists rawCommand st text nluOutput :
  inactive r = false →
  completion_at w st = Normal text →
  JSON_parse text = Normal nluOutput →
  let result := fst (analyzeNaturalLanguageCommand w r rawCommand st) in
  (optional_member (Some nluOutput) "intent" = Some (JStr "trigger_conceptual_backend") →
   (∀ s, parameter nluOutput "script_name" = Some (JStr s) →
         list_includes validConceptualCommands (toLowerCase s) = false →
         result = Normal (ask_ai_result rawCommand))
   ∧ (as_string (parameter nluOutput "script_name") = None →
      result = Normal nluOutput))
  ∧ (optional_member (Some nluOutput) "intent" = Some (JStr "trigger_snapshot_action") →
     (∀ s, parameter nluOutput "action" = Some (JStr s) →
           list_includes validSnapshotActions (toLowerCase s) = false →
           result = Normal (ask_ai_result rawCommand))
     ∧ (as_string (parameter nluOutput "action") = None →
        result = Normal nluOutput)).
Proof.
  intros Hon Htext Hparse result. subst result.
  rewrite analyze_active by done. cbn [fst]. unfold answer.
  rewrite Htext, Hparse.
  split; intros Hintent;
    rewrite !(member_of_object _ _ _ Hintent), Hintent;
    unfold validate, parameter; cbn [strict_equals String.eqb Ascii.eqb Bool.eqb];
    (split; [intros s -> Hout; cbn [as_string]; by rewrite Hout|by intros ->]).
Qed.

(** C3, as the code has it.  A result of the classifier is one of: the
    fixed "System Error" result (API inactive); the "ask_ai" fallback,
    with or without the clarification flag; or the value parsed from the
    model's response, returned unchanged, whatever intent it carries. *)
Theorem classifier_result_shapes rawCommand st :
  let result := fst (analyzeNaturalLanguageCommand w r rawCommand st) in
  (inactive r = true ∧ result = Normal system_error_result)
  ∨ (inactive r = false
     ∧ ((∃ message, result = Normal (nlu_failure_result rawCommand message))
        ∨ result = Normal (ask_ai_result rawCommand)
        ∨ (∃ text, completion_at w st = Normal text
                   ∧ JSON_parse text = result))).
Proof.
  intros result. subst result. destruct (inactive r) eqn:Hr.
  - left. by rewrite analyze_inactive.
  - right. split; [done|]. rewrite analyze_active by done. cbn [fst].
    unfold answer. destruct (completion_at w st) as [text|message]; [|eauto].
    destruct (JSON_parse text) as [nluOutput|message] eqn:Hparse; [|eauto].
    destruct (member nluOutput "intent") as [intent|message]; [|eauto].
    destruct (member nluOutput "parameters") as [parameters|message]; [|eauto].
    unfold validate.
    repeat match goal with
           | |- context [match ?x with _ => _ end] => destruct x
           end; eauto.
Qed.

(** *** The dispatcher *)

Lemma strict_equals_true v s : strict_equals v s = true ↔ v = Some (JStr s).
Proof.
  destruct v as [[]|]; cbn [strict_equals]; try (split; [done|congruence]).
  rewrite String.eqb_eq. split; congruence.
Qed.

(** Reading members of a result that has one: none of the reads throws. *)
Lemma dispatch_reads nluResult key x :
  optional_member (Some nluResult) key = Some x →
  ∀ (A : Type) (k : jsval → M A) key' st,
    (lift (member nluResult key') ≫= k) st
    = k (optional_member (Some nluResult) key') st.
Proof.
  intros Hx A k key' st. unfold mbind, M_bind, lift.
  by rewrite (member_of_object _ _ _ Hx).
Qed.


(** Entering the [switch] with a result that has an intent and is not
    flagged for clarification. *)
Local Ltac enter_switch Hclear Hintent :=
  unfold dispatch;
  rewrite (dispatch_reads _ _ _ Hintent); cbv beta;
  rewrite Hclear; cbv iota;
  repeat (rewrite (dispatch_reads _ _ _ Hintent); cbv beta);
  rewrite Hintent;
  cbn [strict_equals String.eqb Ascii.eqb Bool.eqb].





(** *** Re-entry *)

Lemma bind_normal {A B} (m : M A) (k : A → M B) st a st' :
  m st = (Normal a, st') → (m ≫= k) st = k a st'.
Proof. intros Hm. unfold mbind, M_bind. by rewrite Hm. Qed.

Lemma output_normal prefix sender text isBot type st :
  output w prefix sender text isBot type st
  = (Normal (), snd (output w prefix sender text isBot type st)).
Proof. reflexivity. Qed.

Lemma output_pending prefix sender text isBot type st :
  pending (snd (output w prefix sender text isBot type st)) = pending st.
Proof. reflexivity. Qed.

(** Entering with a command that is not blank queues one invocation. *)
Lemma enter_queues rawCommand st :
  String.eqb (trim rawCommand) "" = false →
  ∃ st', handleCommandSubmit_enter w (Some (JStr rawCommand)) st = (Normal (), st')
         ∧ pending st' = pending st ++ [rawCommand]
         ∧ calls st' = calls st.
Proof.
  intros Hraw. unfold handleCommandSubmit_enter. rewrite Hraw.
  eexists. repeat split.
Qed.

(** The two re-entrant branches of the dispatcher: a result that names
    the script "jailbreak_protocol", or the intent "jailbreak_protocol",
    submits the command "jailbreak_protocol" again. *)
Lemma dispatch_reenters nluResult rawCommand st :
  truthy (optional_member (Some nluResult) "clarificationNeeded") = false →
  (optional_member (Some nluResult) "intent" = Some (JStr "trigger_conceptual_backend")
   ∧ parameter nluResult "script_name" = Some (JStr "jailbreak_protocol"))
  ∨ optional_member (Some nluResult) "intent" = Some (JStr "jailbreak_protocol") →
  String.eqb (trim "jailbreak_protocol") "" = false →
  fst (dispatch w r nluResult rawCommand st) = Normal ()
  ∧ pending (snd (dispatch w r nluResult rawCommand st))
    = pending st ++ ["jailbreak_protocol"].
Proof.
  intros Hclear Hcase Htrim.
  destruct (enter_queues "jailbreak_protocol" st Htrim) as (st' & Henter & Hpending & _).
  destruct Hcase as [[Hintent Hscript]|Hintent]; enter_switch Hclear Hintent.
  - unfold conceptualBackend. fold (parameter nluResult "script_name").
    rewrite Hscript. cbn [strict_equals String.eqb Ascii.eqb Bool.eqb].
    unfold unawaited. by rewrite Henter.
  - unfold unawaited. by rewrite Henter.
Qed.

(** One resumption, when the classifier answers with such a result:
    the invocation ends normally and leaves the next one queued. *)
Lemma resume_reenters rawCommand st nluResult :
  inactive r = false →
  answer rawCommand (completion_at w st) = nluResult →
  truthy (optional_member (Some nluResult) "clarificationNeeded") = false →
  (optional_member (Some nluResult) "intent" = Some (JStr "trigger_conceptual_backend")
   ∧ parameter nluResult "script_name" = Some (JStr "jailbreak_protocol"))
  ∨ optional_member (Some nluResult) "intent" = Some (JStr "jailbreak_protocol") →
  String.eqb (trim "jailbreak_protocol") "" = false →
  pending (snd (handleCommandSubmit_resume w r rawCommand st))
  = pending st ++ ["jailbreak_protocol"].
Proof.
  intros Hon Hanswer Hclear Hcase Htrim.
  assert (∃ x, optional_member (Some nluResult) "intent" = Some x) as [x Hx]
    by (destruct Hcase as [[-> _]| ->]; eauto).
  unfold handleCommandSubmit_resume, try_finally, try_catch.
  rewrite (bind_normal _ _ _ _ _ (analyze_active rawCommand st Hon)).
  rewrite Hanswer.
  repeat (rewrite (dispatch_reads _ _ _ Hx); cbv beta).
  rewrite (bind_normal _ _ _ _ _ (output_normal _ _ _ _ _ _)).
  match goal with
  | |- context [dispatch w r nluResult rawCommand ?s] =>
      destruct (dispatch_reenters nluResult rawCommand s Hclear Hcase Htrim)
        as [Hfst Hpending];
      destruct (dispatch w r nluResult rawCommand s) as [outcome s'] eqn:Hdispatch
  end.
  cbn [fst snd] in Hfst, Hpending. subst outcome. by cbn.
Qed.

Lemma reentry_unsettled rawCommand :
  inactive r = false →
  (∀ st, ∃ nluResult,
     answer rawCommand (completion_at w st) = nluResult
     ∧ truthy (optional_member (Some nluResult) "clarificationNeeded") = false
     ∧ ((optional_member (Some nluResult) "intent" = Some (JStr "trigger_conceptual_backend")
         ∧ parameter nluResult "script_name" = Some (JStr "jailbreak_protocol"))
        ∨ optional_member (Some nluResult) "intent" = Some (JStr "jailbreak_protocol"))) →
  rawCommand = "jailbreak_protocol" →
  String.eqb (trim "jailbreak_protocol") "" = false →
  ∀ fuel st, pending st = [rawCommand] → settle w r fuel st = None.
Proof.
  intros Hon Hloop -> Htrim. induction fuel as [|fuel IH]; intros st Hst.
  - cbn [settle]. by rewrite Hst.
  - cbn [settle]. rewrite Hst. apply IH.
    destruct (Hloop (with_pending (λ _, []) st)) as (nluResult & Ha & Hc & Hi).
    by rewrite (resume_reenters _ _ _ Hon Ha Hc Hi Htrim).
Qed.

(** A resumed invocation never throws: whatever its body does, the
    [catch] reports it and the [finally] clears the loading flag. *)
Lemma resume_normal rawCommand st :
  fst (handleCommandSubmit_resume w r rawCommand st) = Normal ()
  ∧ loading (view (snd (handleCommandSubmit_resume w r rawCommand st))) = false.
Proof.
  unfold handleCommandSubmit_resume, try_finally, try_catch.
  match goal with
  | |- context [match ?body st with _ => _ end] =>
      by destruct (body st) as [[[]|message] st']
  end.
Qed.

(** With the API inactive the classifier answers "System Error", the
    dispatcher takes its last branch, and the cycle settles after one
    resumption without having called any collaborator. *)
Lemma resume_inactive rawCommand st :
  inactive r = true →
  pending (snd (handleCommandSubmit_resume w r rawCommand st)) = pending st
  ∧ calls (snd (handleCommandSubmit_resume w r rawCommand st)) = calls st.
Proof.
  intros Hoff.
  assert (optional_member (Some system_error_result) "intent"
          = Some (JStr "System Error")) as Hintent by reflexivity.
  assert (truthy (optional_member (Some system_error_result) "clarificationNeeded")
          = false) as Hclear by reflexivity.
  unfold handleCommandSubmit_resume, try_finally, try_catch.
  rewrite (bind_normal _ _ _ _ _ (analyze_inactive rawCommand st Hoff)).
  repeat (rewrite (dispatch_reads _ _ _ Hintent); cbv beta).
  rewrite (bind_normal _ _ _ _ _ (output_normal _ _ _ _ _ _)).
  enter_switch Hclear Hintent. split; reflexivity.
Qed.

Lemma inactive_cycle_settles rawCommand st :
  inactive r = true →
  pending st = [] →
  ∃ st', handleCommandSubmit w r 1 rawCommand st = Some st'
         ∧ calls st' = calls st.
Proof.
  intros Hoff Hst. unfold handleCommandSubmit, unawaited.
  destruct (String.eqb (trim rawCommand) "") eqn:Hraw.
  - unfold handleCommandSubmit_enter. rewrite Hraw.
    cbn [snd mret M_ret settle]. rewrite Hst. eauto.
  - destruct (enter_queues rawCommand st Hraw) as (st1 & -> & Hq & Hc).
    rewrite Hst in Hq. cbn [app] in Hq. cbn [snd settle]. rewrite Hq.
    destruct (resume_inactive rawCommand (with_pending (λ _, []) st1) Hoff)
      as [Hpending Hcalls].
    cbn [settle]. rewrite Hpending. cbn [with_pending pending].
    eexists. split; [reflexivity|]. by rewrite Hcalls.
Qed.

End TerminalFacts.

(** ** Concrete inputs *)

Section Runs.
Import JS TerminalView ReferenceHost Scenario.

(** C4, failing input.  The command "jailbreak_protocol" with a
    classifier that answers, as its prompt asks,
    [{"intent": "trigger_conceptual_backend",
      "parameters": {"script_name": "jailbreak_protocol"}}]:
    the dispatcher re-submits "jailbreak_protocol", the classifier gives
    the same answer, and so on; no amount of fuel lets the cycle settle. *)
Theorem jailbreak_reentry_never_settles (fuel : nat) :
  handleCommandSubmit
    (replying (intent_with "trigger_conceptual_backend" "script_name" "jailbreak_protocol"))
    active fuel "jailbreak_protocol" initial_state
  = None.
Proof.
  unfold handleCommandSubmit.
  apply (reentry_unsettled _ active "jailbreak_protocol"); try reflexivity.
  intros st. eexists. split; [reflexivity|]. split; [reflexivity|].
  left. split; reflexivity.
Qed.

(** Each round of that cycle is one more completion call. *)
Example jailbreak_reentry_three_rounds :
  let w := replying (intent_with "trigger_conceptual_backend" "script_name"
                       "jailbreak_protocol") in
  let enter := snd (handleCommandSubmit_enter w (Some (JStr "jailbreak_protocol"))
                      initial_state) in
  let round st := snd (handleCommandSubmit_resume w active "jailbreak_protocol"
                         (with_pending (λ _, []) st)) in
  let st3 := round (round (round enter)) in
  pending st3 = ["jailbreak_protocol"]
  ∧ calls st3 = replicate 3 (GenerateContent (ClassifyRequest "jailbreak_protocol"))
  ∧ length (terminalOutput (view st3)) = 11.
Proof. vm_compute. repeat split. Qed.

(** For contrast: a classifier that answers [{"intent": "clear"}] lets
    the cycle settle after one resumption, with the cleared sink. *)
Example clear_cycle_settles :
  ∃ st m,
    handleCommandSubmit (replying (intent_only "clear")) active 1 "clear" initial_state
    = Some st
    ∧ terminalOutput (view st) = [m]
    ∧ ChatMessage.text m = "Terminal cleared."
    ∧ loading (view st) = false.
Proof. eexists _, _. vm_compute. repeat split. Qed.

(** C1, at a concrete input: the completion call throws. *)
Lemma classifier_failure_fallback_witness :
  let w := failing "fetch failed" in
  let message := "Failed to generate content: fetch failed" in
  inactive active = false
  ∧ completion_at w initial_state = Throw message
  ∧ ∃ result,
      fst (analyzeNaturalLanguageCommand w active "open the notes" initial_state)
      = Normal result
      ∧ optional_member (Some result) "intent" = Some (JStr "ask_ai")
      ∧ parameter result "query" = Some (JStr "open the notes")
      ∧ optional_member (Some result) "clarificationNeeded" = Some (JBool true)
      ∧ optional_member (Some result) "clarificationMessage"
        = Some (JStr ("NLU failed to parse command. Please rephrase or use 'help'. Error: "
                        +:+ message)).
Proof.
  intros w message. split; [reflexivity|]. split; [reflexivity|].
  apply (proj2 (classifier_failure_fallback w active "open the notes"
                  initial_state message)); [reflexivity|].
  left. reflexivity.
Defined.

(** C2, counterexample.  The model answers
    [{"intent": "trigger_conceptual_backend"}], with no [script_name]: the
    result is not replaced, it reaches the dispatcher with its intent. *)
Lemma missing_script_name_not_replaced :
  let w := replying (intent_only "trigger_conceptual_backend") in
  let nluOutput := JObj [("intent", JStr "trigger_conceptual_backend")] in
  JSON_parse (intent_only "trigger_conceptual_backend") = Normal nluOutput
  ∧ parameter nluOutput "script_name" = None
  ∧ fst (analyzeNaturalLanguageCommand w active "wake the backend" initial_state)
    = Normal nluOutput
  ∧ nluOutput ≠ ask_ai_result "wake the backend".
Proof. vm_compute. repeat split. discriminate. Qed.

(** C2, as the code has it, at concrete inputs: a hallucinated snapshot
    action is replaced. *)
Lemma classifier_allow_lists_witness :
  let text := intent_with "trigger_snapshot_action" "action" "bogus" in
  let w := replying text in
  inactive active = false
  ∧ completion_at w initial_state = Normal text
  ∧ (∃ nluOutput, JSON_parse text = Normal nluOutput
       ∧ optional_member (Some nluOutput) "intent" = Some (JStr "trigger_snapshot_action")
       ∧ parameter nluOutput "action" = Some (JStr "bogus"))
  ∧ fst (analyzeNaturalLanguageCommand w active "snapshot bogus" initial_state)
    = Normal (ask_ai_result "snapshot bogus").
Proof.
  intros text w. split; [reflexivity|]. split; [reflexivity|].
  split; [eexists; repeat split; reflexivity|].
  exact (proj1 (proj2 (classifier_allow_lists w active "snapshot bogus"
                         initial_state text
                         (JObj [("intent", JStr "trigger_snapshot_action");
                                ("parameters", JObj [("action", JStr "bogus")])])
                         eq_refl eq_refl eq_refl) eq_refl)
           "bogus" eq_refl eq_refl).
Defined.

(** C3, counterexample.  With the API inactive the classifier answers
    with the intent "System Error", which is neither "ask_ai" nor any
    intent the prompt or the dispatcher knows. *)
Lemma inactive_intent_outside_closed_set :
  let result := system_error_result in
  fst (analyzeNaturalLanguageCommand (replying "") inactive_render "clear" initial_state)
  = Normal result
  ∧ optional_member (Some result) "intent" = Some (JStr "System Error")
  ∧ "System Error" ≠ "ask_ai"
  ∧ ("System Error" ∉ promptIntents)
  ∧ ("System Error" ∉ caseLabels).
Proof.
  repeat split; [discriminate| |];
    unfold promptIntents, caseLabels; intros Hin;
    repeat (apply elem_of_cons in Hin as [Hin|Hin]; [discriminate Hin|]);
    by apply elem_of_nil in Hin.
Qed.

(** A model answer with an intent of its own is passed on as well. *)
Example unknown_intent_passed_on :
  fst (analyzeNaturalLanguageCommand (replying (intent_only "make_coffee")) active
         "coffee please" initial_state)
  = Normal (JObj [("intent", JStr "make_coffee")]).
Proof. reflexivity. Qed.





(** "profile bleak" on the same state. *)
Example switch_profile_bleak :
  let nluResult :=
    JObj [("intent", JStr "switch_profile");
          ("parameters", JObj [("profile_id", JStr "bleak")])] in
  let st' := snd (dispatch (replying "") active nluResult "profile bleak" initial_state) in
  UserProfile.name (currentUserProfile (view st')) = "Bleak Narratives"
  ∧ ChatMessage.text <$> terminalOutput (view st')
    = ["User profile switched to: Bleak Narratives (🦊)."].
Proof. vm_compute. repeat split. Qed.

(** C10, at a concrete input: saving a second version of snapshot "a",
    this time with a panel open. *)
Lemma saveSnapshot_upsert_witness :
  let a := record_of "a" "first" initial_state in
  let b := record_of "b" "second" initial_state in
  let a' := showing ClaudeDevNotes (snapshot_of "a" "first, again" (live initial_state)) in
  NoDup (AppSnapshot.id <$> [a; b])
  ∧ ∃ stored_a',
      SnapshotService.stored content_json a' = Normal stored_a'
      ∧ SnapshotService.saveSnapshot content_json true a' (SnapshotService.Snapshots [a; b])
        = (Normal (), SnapshotService.Snapshots [b; stored_a'])
      ∧ NoDup (AppSnapshot.id <$> [b; stored_a']).
Proof.
  intros a b a'.
  assert (NoDup (AppSnapshot.id <$> [a; b])) as Hab.
  { apply (bool_decide_unpack _). by vm_compute. }
  split; [exact Hab|]. eexists. split; [reflexivity|].
  match goal with
  | |- _ = (_, SnapshotService.Snapshots ?saved) ∧ _ =>
      assert (SnapshotService.saveSnapshot content_json true a'
                (SnapshotService.Snapshots [a; b])
              = (Normal (), SnapshotService.Snapshots saved)) as Hsaved by reflexivity
  end.
  split; [exact Hsaved|].
  destruct (saveSnapshot_upsert content_json true [a; b] a') as (l' & Hsave & _ & Hnodup & _).
  rewrite Hsaved in Hsave. injection Hsave as <-. by apply Hnodup.
Defined.

(** C10, counterexample.  [setItem] throws (the quota is used up): the
    call returns normally and the store holds no record with the id of the
    snapshot. *)
Lemma failed_write_stores_nothing :
  let b := record_of "b" "second" initial_state in
  let a := snapshot_of "a" "first" initial_state in
  SnapshotService.saveSnapshot content_json false a (SnapshotService.Snapshots [b])
  = (Normal (), SnapshotService.Snapshots [b])
  ∧ filter (λ x, AppSnapshot.id x = AppSnapshot.id a) [b] = [].
Proof. split; reflexivity. Qed.

(** C9 on a few byte arrays. *)
Example encode_Man :
  GeminiService.encode [x4d; x61; x6e] = "TWFu"
  ∧ GeminiService.encode [x4d; x61] = "TWE="
  ∧ GeminiService.encode [x4d] = "TQ=="
  ∧ GeminiService.decode "TWE=" = Normal [x4d; x61]
  ∧ GeminiService.decode " T Q = =" = Normal [x4d]
  ∧ GeminiService.decode "TQ=" = Throw "InvalidCharacterError".
Proof. vm_compute. repeat split. Qed.

End Runs.

(** * Further properties *)

(** ** The snapshot store: lookups after updates *)

Section SnapshotLookups.
Context `{Host}.
Import SnapshotService.

Implicit Types (l : list Stored) (k : string).

Lemma find_id_app k l l' :
  find (λ x, String.eqb (AppSnapshot.id x) k) (l ++ l')
  = match find (λ x, String.eqb (AppSnapshot.id x) k) l with
    | Some x => Some x
    | None => find (λ x, String.eqb (AppSnapshot.id x) k) l'
    end.
Proof.
  induction l as [|x l IH]; [done|]. cbn [app find].
  by destruct (String.eqb (AppSnapshot.id x) k).
Qed.

Lemma find_id_others k k' l :
  find (λ x, String.eqb (AppSnapshot.id x) k)
    (filter (λ x, AppSnapshot.id x ≠ k') l)
  = if decide (k = k') then None
    else find (λ x, String.eqb (AppSnapshot.id x) k) l.
Proof.
  induction l as [|x l IH]; [by destruct (decide (k = k'))|].
  destruct (decide (AppSnapshot.id x = k')) as [Hx|Hx].
  - rewrite filter_cons_False by auto. rewrite IH.
    destruct (decide (k = k')) as [->|Hk]; [done|].
    cbn [find]. destruct (String.eqb_spec (AppSnapshot.id x) k); [congruence|done].
  - rewrite filter_cons_True by done. cbn [find]. rewrite IH.
    destruct (String.eqb_spec (AppSnapshot.id x) k) as [Hxk|Hxk]; [|done].
    destruct (decide (k = k')); [congruence|done].
Qed.

Lemma filter_all_others k l :
  (∀ x, x ∈ l → AppSnapshot.id x ≠ k) →
  filter (λ x, AppSnapshot.id x ≠ k) l = l.
Proof.
  induction l as [|x l IH]; intros Hl; [done|].
  rewrite filter_cons_True by (apply Hl; left).
  rewrite IH; [done|]. intros y Hy. apply Hl. by right.
Qed.

Lemma filter_shorter k l :
  (length (filter (λ x, AppSnapshot.id x ≠ k) l) <? length l)%nat = false →
  filter (λ x, AppSnapshot.id x ≠ k) l = l.
Proof.
  intros Hlen%Nat.ltb_ge. induction l as [|x l IH]; [done|].
  pose proof (length_filter (λ x, AppSnapshot.id x ≠ k) l) as Hle.
  destruct (decide (AppSnapshot.id x = k)) as [Hx|Hx].
  - rewrite filter_cons_False in Hlen by auto. cbn [length] in Hlen. lia.
  - rewrite filter_cons_True in Hlen |- * by done. cbn [length] in Hlen.
    rewrite IH; [done|lia].
Qed.

(** X1.  Looking a snapshot up after a save whose [setItem] succeeds, by
    any id and on any store.  On a store that holds no array the lookup
    throws as before.  Otherwise the id of the saved snapshot finds the
    record as it was written - what JSON makes of the snapshot, which has
    the snapshot's fields except for the Looking Glass content - and
    every other id finds what it found before; when [JSON.stringify]
    throws on the snapshot, every id finds what it found before. *)
Theorem loadSnapshot_after_save {Content} (content_json : Content → Completion jsval)
    (s : AppSnapshot.t Content) k store :
  loadSnapshot k (snd (saveSnapshot content_json true s store))
  = match loadSnapshot k store, stored content_json s with
    | Throw message, _ => Throw message
    | Normal found, Throw _ => Normal found
    | Normal found, Normal s' =>
        Normal (if decide (k = AppSnapshot.id s) then Some s' else found)
    end
  ∧ ∀ s', stored content_json s = Normal s' →
      AppSnapshot.id s' = AppSnapshot.id s
      ∧ AppSnapshot.timestamp s' = AppSnapshot.timestamp s
      ∧ AppSnapshot.description s' = AppSnapshot.description s
      ∧ AppSnapshot.terminalState s' = AppSnapshot.terminalState s
      ∧ content_json (content (lookingGlassState (AppSnapshot.appState s)))
        = Normal (content (lookingGlassState (AppSnapshot.appState s'))).
Proof.
  split.
  - unfold loadSnapshot, saveSnapshot.
    destruct store as [| |[]|l]; cbn [getSnapshots array_method snd]; try done;
      destruct (stored content_json s) as [s'|message] eqn:Hs; cbn; try done;
      destruct (stored_fields _ _ _ Hs) as (Hid & _);
      try (destruct (decide (k = AppSnapshot.id s)) as [->|Hk];
           destruct (String.eqb_spec (AppSnapshot.id s') (AppSnapshot.id s));
           try destruct (String.eqb_spec (AppSnapshot.id s') k);
           congruence).
    rewrite find_id_app, find_id_others.
    destruct (decide (k = AppSnapshot.id s)) as [->|Hk].
    + cbn [find]. by rewrite Hid, String.eqb_refl.
    + destruct (find _ l); [done|]. cbn [find].
      destruct (String.eqb_spec (AppSnapshot.id s') k); [congruence|done].
  - intros s' Hs. destruct (stored_fields _ _ _ Hs) as (? & ? & ? & ? & _ & _ & _ & ?).
    done.
Qed.

Lemma records_after_delete k store :
  records (snd (deleteSnapshot true k store))
  = filter (λ x, AppSnapshot.id x ≠ k) (records store).
Proof.
  unfold deleteSnapshot, records.
  destruct store as [| |[]|l]; cbn [getSnapshots array_method snd]; try done.
  destruct (_ <? _)%nat eqn:Hlen; [done|]. by rewrite filter_shorter.
Qed.

(** X2.  Looking a snapshot up after a delete whose write succeeds, by
    any id and on any store: the deleted id finds nothing, every other id
    finds what it found before; on a store that holds no array the lookup
    throws as before. *)
Theorem loadSnapshot_after_delete k k' store :
  loadSnapshot k (snd (deleteSnapshot true k' store))
  = match loadSnapshot k store with
    | Normal found => Normal (if decide (k = k') then None else found)
    | Throw message => Throw message
    end.
Proof.
  unfold loadSnapshot, deleteSnapshot.
  destruct store as [| |[]|l]; cbn [getSnapshots array_method snd]; try done;
    try by destruct (decide (k = k')).
  destruct (_ <? _)%nat eqn:Hlen; cbn [saveSnapshots getSnapshots array_method snd].
  - by rewrite find_id_others.
  - rewrite <- (find_id_others k k'). by rewrite filter_shorter.
Qed.


(** X4.  Saving a snapshot under a fresh id and deleting that id again
    gives back the stored list - whether or not the snapshot could be
    written. *)
Theorem deleteSnapshot_undoes_save {Content}
    (content_json : Content → Completion jsval) l (s : AppSnapshot.t Content) :
  (∀ x, x ∈ l → AppSnapshot.id x ≠ AppSnapshot.id s) →
  fst (saveSnapshot content_json true s (Snapshots l)) = Normal ()
  ∧ deleteSnapshot true (AppSnapshot.id s)
      (snd (saveSnapshot content_json true s (Snapshots l)))
    = (Normal (), Snapshots l).
Proof.
  intros Hfresh. split; [done|]. unfold saveSnapshot, deleteSnapshot.
  cbn [getSnapshots array_method snd].
  destruct (stored content_json s) as [s'|message] eqn:Hs;
    cbn [saveSnapshots getSnapshots array_method].
  - destruct (stored_fields _ _ _ Hs) as (Hid & _).
    rewrite (filter_all_others _ l Hfresh).
    rewrite filter_app, (filter_all_others _ l Hfresh).
    rewrite filter_cons_False by (rewrite Hid; auto).
    rewrite filter_nil, app_nil_r, length_app. cbn [length].
    destruct (Nat.ltb_spec (length l) (length l + 1)); [done|lia].
  - rewrite (filter_all_others _ l Hfresh). by rewrite Nat.ltb_irrefl.
Qed.

(** X5.  Saving the same snapshot twice is the same as saving it once. *)
Theorem saveSnapshot_idempotent {Content}
    (content_json : Content → Completion jsval) writable
    (s : AppSnapshot.t Content) store :
  saveSnapshot content_json writable s
    (snd (saveSnapshot content_json writable s store))
  = saveSnapshot content_json writable s store.
Proof.
  unfold saveSnapshot.
  destruct store as [| |[]|l]; cbn [getSnapshots array_method snd]; try done;
    destruct (stored content_json s) as [s'|message] eqn:Hs, writable;
    cbn [saveSnapshots getSnapshots array_method snd]; rewrite ?Hs; try done;
    destruct (stored_fields _ _ _ Hs) as (Hid & _); cbn [saveSnapshots];
    rewrite filter_app, others_idempotent;
    rewrite filter_cons_False by (rewrite Hid; auto);
    by rewrite filter_nil, app_nil_r.
Qed.

End SnapshotLookups.

(** ** The snapshot store: listing *)

Section SnapshotListing.
Context `{Host}.
Import SnapshotService.
Context (getTime : string → option Z).

Implicit Types (l : list Stored) (x : Stored).









End SnapshotListing.

(** ** The base64 helpers: sizes, missing padding, illegal input *)

Section MoreBase64.
Import GeminiService.

Lemma length_string_of_list l : String.length (string_of_list_ascii l) = length l.
Proof. induction l as [|c l IH]; [done|]. cbn. by rewrite IH. Qed.

Lemma length_list_of_string s : length (list_ascii_of_string s) = String.length s.
Proof. induction s as [|c s IH]; [done|]. cbn. by rewrite IH. Qed.

Lemma groups_length (octets : list N) :
  (length (sextets_of_octets octets) + length (padding octets)
   = 4 * ((length octets + 2) / 3))%nat.
Proof.
  induction octets as [|a|a b|a b c l IH] using list_ind3; [done..|].
  cbn [sextets_of_octets padding length].
  replace (S (S (S (length l))) + 2)%nat with (length l + 2 + 1 * 3)%nat by lia.
  rewrite Nat.div_add by done. lia.
Qed.

(** X7.  An encoded byte array is four characters for every started group
    of three bytes. *)
Theorem encode_length (bytes : list byte) :
  String.length (encode bytes) = (4 * ((length bytes + 2) / 3))%nat.
Proof.
  unfold encode, btoa. rewrite encode_loop_spec.
  change ("" +:+ ?s) with s.
  rewrite length_string_of_list, list_ascii_of_string_of_list_ascii.
  rewrite length_app, !length_map. by rewrite groups_length, !length_map.
Qed.

Lemma strip_padding_plain data :
  Forall (λ c, Ascii.eqb c pad_char = false) data →
  strip_padding data = data.
Proof.
  intros Hdata. unfold strip_padding. destruct (_ =? _)%nat; [|done].
  assert (∀ q r, rev data = q :: r → Ascii.eqb q pad_char = false) as Hlast.
  { intros q r Hrev. rewrite List.Forall_forall in Hdata. apply Hdata.
    apply List.in_rev. rewrite Hrev. by left. }
  destruct (rev data) as [|p [|q r]] eqn:Hrev; [done|..];
    by rewrite (Hlast _ _ eq_refl).
Qed.

Lemma body_without_padding (octets : list N) :
  Forall octet octets →
  filter (λ c, c ≠ pad_char)
    (map sextet_char (sextets_of_octets octets) ++ padding octets)
  = map sextet_char (sextets_of_octets octets).
Proof.
  intros Hoct. rewrite filter_app.
  assert (filter (λ c, c ≠ pad_char) (padding octets) = []) as ->.
  { destruct (padding_cases octets) as [->|[->| ->]]; [done|..];
      by rewrite ?filter_cons_False by (intros Hne; by apply Hne). }
  rewrite app_nil_r.
  pose proof (sextets_of_octets_small _ Hoct) as Hsmall.
  induction Hsmall as [|i l Hi _ IH]; [done|]. cbn [map].
  rewrite filter_cons_True.
  - by rewrite IH.
  - intros Heq. destruct (sextet_char_plain i Hi) as [_ Hpad].
    rewrite Heq, Ascii.eqb_refl in Hpad. done.
Qed.

(** X8.  [decode] does not need the padding: an encoded byte array with
    its [=] signs removed still decodes to the same bytes. *)
Theorem decode_without_padding (bytes : list byte) :
  decode (string_of_list_ascii
            (filter (λ c, c ≠ pad_char) (list_ascii_of_string (encode bytes))))
  = Normal bytes.
Proof.
  unfold decode, encode, btoa, atob. rewrite encode_loop_spec.
  change ("" +:+ ?s) with s. rewrite !list_ascii_of_string_of_list_ascii.
  set (octets := map N_of_ascii (map fromCharCode bytes)).
  assert (Forall octet octets) as Hoct.
  { subst octets. apply List.Forall_forall. intros n [c [<- _]]%List.in_map_iff.
    apply N_ascii_bounded. }
  rewrite (body_without_padding _ Hoct).
  pose proof (sextets_of_octets_small _ Hoct) as Hsmall.
  assert (Forall (λ c, is_ascii_whitespace c = false
                       ∧ Ascii.eqb c pad_char = false)
            (map sextet_char (sextets_of_octets octets))) as Hbody.
  { apply List.Forall_forall. intros c [i [<- Hi]]%List.in_map_iff.
    rewrite List.Forall_forall in Hsmall. by apply sextet_char_plain, Hsmall. }
  rewrite keep_non_whitespace
    by (eapply List.Forall_impl; [|exact Hbody]; by intros c [? ?]).
  rewrite strip_padding_plain
    by (eapply List.Forall_impl; [|exact Hbody]; by intros c [? ?]).
  rewrite length_map. destruct (encoded_length octets) as [_ Hlen1].
  destruct (Nat.eqb_spec (length (sextets_of_octets octets) mod 4) 1); [done|].
  rewrite sextets_of_chars_of_sextets by done.
  rewrite octets_of_sextets_of_octets by done.
  subst octets. rewrite map_map.
  rewrite (map_ext _ id) by (intros c; apply ascii_N_embedding).
  rewrite map_id. by rewrite decode_loop_spec.
Qed.

Lemma strip_padding_keeps c data :
  In c data → Ascii.eqb c pad_char = false → In c (strip_padding data).
Proof.
  intros Hc Hpad. unfold strip_padding. destruct (_ =? _)%nat; [|done].
  assert (In c (rev data)) as Hrev by (by apply List.in_rev in Hc).
  destruct (rev data) as [|p [|q r]] eqn:Hdata; [done|..].
  - destruct (Ascii.eqb_spec p pad_char) as [->|]; [|done].
    destruct Hrev as [<-|[]]. by rewrite Ascii.eqb_refl in Hpad.
  - destruct (Ascii.eqb_spec p pad_char) as [->|]; [|done].
    destruct Hrev as [<-|Hrev]; [by rewrite Ascii.eqb_refl in Hpad|].
    destruct (Ascii.eqb_spec q pad_char) as [->|].
    + destruct Hrev as [<-|Hrev]; [by rewrite Ascii.eqb_refl in Hpad|].
      by apply List.in_rev in Hrev.
    + by apply List.in_rev in Hrev.
Qed.

Lemma sextets_of_chars_illegal c data :
  In c data → char_sextet c = None → sextets_of_chars data = None.
Proof.
  induction data as [|d data IH]; [done|]. intros [->|Hc] Hnone.
  - cbn [sextets_of_chars]. by rewrite Hnone.
  - cbn [sextets_of_chars]. rewrite (IH Hc Hnone). by destruct (char_sextet d).
Qed.

(** X9.  [decode] throws on every string that contains a character which
    is neither a base64 digit, nor [=], nor ASCII white space - the
    URL-safe digits [-] and [_] for instance. *)
Theorem decode_illegal_character (base64 : string) (c : ascii) :
  In c (list_ascii_of_string base64) →
  char_sextet c = None →
  c ≠ pad_char →
  is_ascii_whitespace c = false →
  decode base64 = Throw "InvalidCharacterError".
Proof.
  intros Hc Hnone Hpad Hspace. unfold decode, atob.
  destruct (_ =? 1)%nat; [done|].
  rewrite (sextets_of_chars_illegal c); [done| |done].
  apply strip_padding_keeps.
  - apply list_elem_of_In, list_elem_of_filter. by rewrite list_elem_of_In.
  - by destruct (Ascii.eqb_spec c pad_char).
Qed.

(** X10.  [generateContent] never resolves to the empty string: a response
    without text, or with empty text, becomes "No response generated.",
    and a failed call always throws. *)
Theorem generateContent_never_empty (outcome : Completion (option string)) :
  match outcome with
  | Normal _ =>
      ∃ text, generateContent outcome = Normal text ∧ text ≠ ""
              ∧ (outcome = Normal (Some text) ∨ text = "No response generated.")
  | Throw _ => ∃ message, generateContent outcome = Throw message
  end.
Proof.
  destruct outcome as [[text|]|message]; cbn [generateContent].
  - destruct (String.eqb_spec text ""); eauto 6.
  - eauto.
  - repeat destruct (_ || _); repeat destruct (includes _ _); eauto.
Qed.

End MoreBase64.

(** ** Handlers and the state they leave *)

Section Frames.
Context (R : relation State) `{!PreOrder R}.

Lemma keeps_ret {A} (a : A) : keeps R (mret a).
Proof. intros st. apply reflexivity. Qed.

Lemma keeps_lift {A} (c : Completion A) : keeps R (lift c).
Proof. intros st. apply reflexivity. Qed.

Lemma keeps_throw {A} message : keeps R (throw (A:=A) message).
Proof. intros st. apply reflexivity. Qed.

(** At one state: the continuation only has to be framed for the value
    the first part produced there. *)
Lemma kept_bind {A B} (m : M A) (k : A → M B) st :
  R st (snd (m st)) → (∀ a, fst (m st) = Normal a → keeps R (k a)) →
  R st (snd ((m ≫= k) st)).
Proof.
  intros Hm Hk. unfold mbind, M_bind.
  destruct (m st) as [[a|message] st1]; [|done].
  etrans; [exact Hm|by apply Hk].
Qed.

Lemma keeps_bind {A B} (m : M A) (k : A → M B) :
  keeps R m → (∀ a, keeps R (k a)) → keeps R (m ≫= k).
Proof. intros Hm Hk st. apply kept_bind; [apply Hm|by intros]. Qed.

Lemma keeps_bind_lift {A B} (c : Completion A) (k : A → M B) :
  (∀ a, c = Normal a → keeps R (k a)) → keeps R (lift c ≫= k).
Proof.
  intros Hk st. unfold mbind, M_bind, lift.
  destruct c as [a|message]; [by apply Hk|apply reflexivity].
Qed.

Lemma kept_try_catch {A} (body : M A) handler st :
  R st (snd (body st)) → (∀ message, keeps R (handler message)) →
  R st (snd (try_catch body handler st)).
Proof.
  intros Hbody Hhandler. unfold try_catch.
  destruct (body st) as [[a|message] st1]; [done|].
  etrans; [exact Hbody|apply Hhandler].
Qed.

Lemma keeps_try_catch {A} (body : M A) handler :
  keeps R body → (∀ message, keeps R (handler message)) →
  keeps R (try_catch body handler).
Proof. intros Hbody Hhandler st. apply kept_try_catch; [apply Hbody|done]. Qed.

Lemma kept_try_finally {A} (body : M A) final st :
  R st (snd (body st)) → keeps R final →
  R st (snd (try_finally body final st)).
Proof.
  intros Hbody Hfinal. unfold try_finally.
  destruct (body st) as [outcome st1]. specialize (Hfinal st1).
  destruct (final st1) as [[[]|message] st2]; by etrans.
Qed.

Lemma keeps_try_finally {A} (body : M A) final :
  keeps R body → keeps R final → keeps R (try_finally body final).
Proof. intros Hbody Hfinal st. apply kept_try_finally; [apply Hbody|done]. Qed.

Lemma keeps_unawaited {A} (m : M A) : keeps R m → keeps R (unawaited m).
Proof. intros Hm st. apply Hm. Qed.

Lemma keeps_modify (f : State → State) :
  (∀ st, R st (f st)) → keeps R (modify f).
Proof. intros Hf st. apply Hf. Qed.

End Frames.

#[global] Instance sink_grows_preorder : PreOrder sink_grows.
Proof.
  split; [intros st; by unfold sink_grows|].
  intros st1 st2 st3. unfold sink_grows. by etrans.
Qed.

#[global] Instance same_queue_preorder : PreOrder same_queue.
Proof.
  split; [intros st; by unfold same_queue|].
  intros st1 st2 st3. unfold same_queue. congruence.
Qed.

#[global] Instance profile_from_table_preorder : PreOrder profile_from_table.
Proof.
  split; [by left|].
  intros st1 st2 st3 [H12|H12] [H23|H23]; unfold profile_from_table;
    rewrite ?H23; auto.
Qed.

#[global] Instance offline_preorder : PreOrder offline.
Proof.
  split.
  - intros st. exists []. by rewrite app_nil_r.
  - intros st1 st2 st3 (l & Hl & Hlocal) (l' & Hl' & Hlocal').
    exists (l ++ l'). split; [by rewrite Hl', Hl, app_assoc|].
    by rewrite forallb_app, Hlocal, Hlocal'.
Qed.

Lemma member_normal `{Host} v key x :
  JS.member v key = Normal x → x = JS.optional_member (Some v) key.
Proof. destruct v; cbn; congruence. Qed.

(** One step of a frame proof: a rule for each way handlers are put
    together; [leaf] closes the primitive steps. *)
Ltac frame_step leaf :=
  lazymatch goal with
  | |- PreOrder _ => exact _
  | |- keeps _ (mret _) => apply keeps_ret
  | |- keeps _ (lift _ ≫= _) =>
      let x := fresh "x" in
      let Hx := fresh "Hx" in
      apply keeps_bind_lift;
        [|intros x Hx; try (apply member_normal in Hx; subst x)]
  | |- keeps _ (_ ≫= _) => apply keeps_bind; [| |intros ?]
  | |- keeps _ (try_catch _ _) => apply keeps_try_catch; [| |intros ?]
  | |- keeps _ (try_finally _ _) => apply keeps_try_finally
  | |- keeps _ (unawaited _) => apply keeps_unawaited
  | |- keeps _ (lift _) => apply keeps_lift
  | |- keeps _ (throw _) => apply keeps_throw
  | |- keeps _ (if ?b then _ else _) =>
      first [ match goal with E : b = _ |- _ => rewrite E; cbv iota end
            | destruct b eqn:? ]
  | |- keeps _ (match ?x with _ => _ end) => destruct x eqn:?
  | |- keeps _ _ => leaf
  end.

Ltac frame leaf := repeat frame_step leaf.

Section DispatcherFrames.
Context `{Host} (w : World) (r : Render).
Import JS TerminalView.

Local Ltac open_handlers :=
  unfold handleCommandSubmit_resume, analyzeNaturalLanguageCommand,
    dispatch, conceptualBackend, switchProfile, snapshotAction,
    handleCommandSubmit_enter,
    handleAIGeneralQuery, handleNewIdea, handleRefactorCode,
    handleSwarmAnalytics, handleSwarmPilot, handleClaudeNotes,
    handleFoxMeditation, handleSovereignBrain, handleAutoClean,
    handleLoomDataOptimization, handleNLUStatus,
    startLiveConversation, endLiveConversation,
    startMicrophoneInput, stopMicrophoneInput,
    call_generateContent, show_panel, lookingGlass; cbv zeta.

Lemma profile_found v p :
  find (λ p, strict_equals v (UserProfile.id p)) USER_PROFILES = Some p →
  p ∈ USER_PROFILES.
Proof. intros [Hp _]%find_some. by apply list_elem_of_In. Qed.

Local Ltac profile_leaf :=
  intros ?; first [ by left | right; eapply profile_found; eassumption ].

Lemma resume_profile rawCommand :
  keeps profile_from_table (handleCommandSubmit_resume w r rawCommand).
Proof. open_handlers. frame profile_leaf. Qed.

Lemma enter_profile rawCommand :
  keeps profile_from_table (handleCommandSubmit_enter w rawCommand).
Proof. open_handlers. frame profile_leaf. Qed.

Lemma settle_profile fuel st st' :
  settle w r fuel st = Some st' → profile_from_table st st'.
Proof.
  revert st. induction fuel as [|fuel IH]; intros st; cbn [settle];
    destruct (pending st) as [|rawCommand rest]; try done.
  - intros [= ->]. reflexivity.
  - intros [= ->]. reflexivity.
  - intros Hrest%IH. etrans; [|exact Hrest].
    apply (resume_profile rawCommand (with_pending (λ _, rest) st)).
Qed.

(** X11.  The current profile is always an entry of the profile table:
    whatever command is submitted, whatever the classifier answers and
    however long the cycle runs, a profile from the table is followed by
    a profile from the table. *)
Theorem profile_stays_in_table fuel rawCommand st st' :
  currentUserProfile (view st) ∈ USER_PROFILES →
  handleCommandSubmit w r fuel rawCommand st = Some st' →
  currentUserProfile (view st') ∈ USER_PROFILES.
Proof.
  intros Hst Hrun. unfold handleCommandSubmit, unawaited in Hrun.
  apply settle_profile in Hrun.
  pose proof (enter_profile (Some (JStr rawCommand)) st) as Henter.
  destruct (transitivity Henter Hrun) as [->|]; done.
Qed.

Local Ltac sink_leaf :=
  intros ?; unfold sink_grows; cbn;
  first [ done | by apply prefix_app_r ].

Lemma analyze_sink rawCommand :
  keeps sink_grows (analyzeNaturalLanguageCommand w r rawCommand).
Proof. open_handlers. frame sink_leaf. Qed.

Lemma not_equal_false v s :
  v ≠ Some (JStr s) → strict_equals v s = false.
Proof.
  intros Hv. destruct (strict_equals v s) eqn:E; [|done].
  by apply strict_equals_true in E.
Qed.

(** X12.  Only "clear" removes output.  When the classifier's answer has
    another intent, or none, resuming the command leaves every message
    that was in the sink where it was and only adds messages after them;
    this holds on every path: handler failures, clarifications, unknown
    intents. *)
Theorem resume_keeps_history rawCommand st :
  (∀ nluResult,
     fst (analyzeNaturalLanguageCommand w r rawCommand st) = Normal nluResult →
     optional_member (Some nluResult) "intent" ≠ Some (JStr "clear")) →
  ∃ added,
    terminalOutput (view (snd (handleCommandSubmit_resume w r rawCommand st)))
    = terminalOutput (view st) ++ added.
Proof.
  intros Hother.
  enough (sink_grows st (snd (handleCommandSubmit_resume w r rawCommand st)))
    as [added Hadded] by eauto.
  unfold handleCommandSubmit_resume.
  apply kept_try_finally; [exact _| |open_handlers; frame sink_leaf].
  apply kept_try_catch; [exact _| |intros message; open_handlers; frame sink_leaf].
  apply kept_bind; [exact _|apply analyze_sink|].
  intros nluResult Hresult. apply Hother, not_equal_false in Hresult.
  open_handlers. frame sink_leaf.
Qed.

Local Ltac queue_leaf := intros ?; reflexivity.

Lemma reentrant_false nluResult :
  reentrant nluResult = false →
  let intent := optional_member (Some nluResult) "intent" in
  strict_equals intent "play_fox_hunt" = false
  ∧ strict_equals intent "jailbreak_protocol" = false
  ∧ (strict_equals intent "trigger_conceptual_backend" = false
     ∨ strict_equals
         (optional_member (optional_member (Some nluResult) "parameters") "script_name")
         "jailbreak_protocol" = false).
Proof.
  unfold reentrant, parameter. cbv zeta.
  repeat destruct (strict_equals _ _); cbn; auto; discriminate.
Qed.

Lemma analyze_queue rawCommand :
  keeps same_queue (analyzeNaturalLanguageCommand w r rawCommand).
Proof. open_handlers. frame queue_leaf. Qed.

Lemma resume_queue rawCommand st :
  (∀ nluResult,
     fst (analyzeNaturalLanguageCommand w r rawCommand st) = Normal nluResult →
     reentrant nluResult = false) →
  pending (snd (handleCommandSubmit_resume w r rawCommand st)) = pending st.
Proof.
  intros Hnot. change (same_queue st (snd (handleCommandSubmit_resume w r rawCommand st))).
  unfold handleCommandSubmit_resume.
  apply kept_try_finally; [exact _| |open_handlers; frame queue_leaf].
  apply kept_try_catch; [exact _| |intros message; open_handlers; frame queue_leaf].
  apply kept_bind; [exact _|apply analyze_queue|].
  intros nluResult Hresult.
  apply Hnot, reentrant_false in Hresult.
  cbv zeta in Hresult. destruct Hresult as (Hfox & Hjail & [Hbackend|Hscript]);
    open_handlers; frame queue_leaf.
Qed.

(** X13.  A command whose classification leads to none of the three
    resubmitting branches is finished after one resumption: the cycle
    settles, nothing stays queued, and the loading flag is off unless the
    command was blank (a blank command does nothing at all). *)
Theorem command_settles_in_one_round rawCommand st :
  pending st = [] →
  (∀ st1 nluResult,
     fst (analyzeNaturalLanguageCommand w r rawCommand st1) = Normal nluResult →
     reentrant nluResult = false) →
  ∃ st', handleCommandSubmit w r 1 rawCommand st = Some st'
         ∧ pending st' = []
         ∧ (if String.eqb (trim rawCommand) "" then st' = st
            else loading (view st') = false).
Proof.
  intros Hst Hnot. unfold handleCommandSubmit, unawaited.
  destruct (String.eqb (trim rawCommand) "") eqn:Hraw.
  - unfold handleCommandSubmit_enter. rewrite Hraw.
    cbn [snd mret M_ret settle]. rewrite Hst. eauto.
  - destruct (enter_queues w rawCommand st Hraw) as (st1 & -> & Hq & _).
    rewrite Hst in Hq. cbn [app] in Hq. cbn [snd settle]. rewrite Hq.
    pose proof (resume_queue rawCommand (with_pending (λ _, []) st1)
                  (Hnot _)) as Hpending.
    destruct (resume_normal w r rawCommand (with_pending (λ _, []) st1))
      as [_ Hloading].
    cbn [settle]. rewrite Hpending. cbn [with_pending pending]. eauto.
Qed.

Local Ltac offline_leaf :=
  intros ?; unfold offline; cbn;
  first [ by (exists []; rewrite app_nil_r)
        | by (eexists [_]) ].

(** X14.  With the API inactive the dispatcher reaches nothing outside
    the page, whatever result it is handed: no completion call, no live
    connection and no microphone prompt is made by any branch. *)
Theorem dispatch_offline nluResult rawCommand st :
  inactive r = true →
  ∃ made,
    calls (snd (dispatch w r nluResult rawCommand st)) = calls st ++ made
    ∧ ∀ c, c ∈ made →
        (∀ request, c ≠ GenerateContent request)
        ∧ (∀ profile, c ≠ LiveConnect profile)
        ∧ c ≠ GetUserMedia.
Proof.
  intros Hoff.
  enough (keeps offline (dispatch w r nluResult rawCommand)) as Hkeeps.
  { destruct (Hkeeps st) as (made & Hmade & Hlocal). exists made.
    split; [done|]. intros c Hc.
    rewrite forallb_forall in Hlocal.
    apply list_elem_of_In, Hlocal in Hc. by destruct c. }
  open_handlers. frame offline_leaf.
Qed.

End DispatcherFrames.

(** ** The handlers behind the dispatcher *)

Section HandlerFacts.
Context `{Host} (w : World) (r : Render).
Import JS TerminalView.

Local Ltac run_monad :=
  unfold output, message, addOutput, setTerminalOutput, setLoading,
    setLiveSessionActive, setLiveTranscript, setAudioQueue, setIsInterrupted,
    setCurrentUserProfile, setCommandInput, call_generateContent,
    show_panel, lookingGlass, read_refs, tick, log, unawaited,
    mbind, M_bind, mret, M_ret, lift, modify, throw, try_catch, try_finally.

(** X15.  Each of the four handlers that need the API checks for it
    first: with the API inactive it appends one error message, asks for an
    API key, and does nothing else - no request, no connection, and the
    loading flag, the session flag and the refs stay as they are. *)
Theorem api_guard (handler : M unit) description nuance st :
  inactive r = true →
  handler ∈ [handleAIGeneralQuery w r description nuance;
             handleNewIdea w r description nuance;
             handleRefactorCode w r;
             startLiveConversation w r] →
  ∃ m, fst (handler st) = Normal ()
       ∧ appended m (with_calls (λ l, l ++ [SelectApiKey]) st) (snd (handler st))
       ∧ ChatMessage.type m = error.
Proof.
  intros Hoff Hhandler.
  repeat (apply elem_of_cons in Hhandler as [->|Hhandler]);
    [..|by apply elem_of_nil in Hhandler];
    unfold handleAIGeneralQuery, handleNewIdea, handleRefactorCode,
      startLiveConversation; rewrite Hoff;
    eexists; (split; [reflexivity|]);
    (split; [unfold appended; cbn; split_and!; reflexivity|reflexivity]).
Qed.


(** X17.  A "generate_idea" request without a description.  The request
    is still sent; when a Looking Glass is there, building the panel
    title then fails on the missing description, so the analysis is
    dropped and an error is reported, and when there is none the handler
    reports the analysis of "undefined" as complete. *)
Theorem handleNewIdea_missing_description nuance st analysis :
  inactive r = false →
  GeminiService.generateContent (models_generateContent w (S (S (ticks st))))
  = Normal analysis →
  let st' := snd (handleNewIdea w r None nuance st) in
  fst (handleNewIdea w r None nuance st) = Normal ()
  ∧ loading (view st') = false
  ∧ ∃ notice reply,
      terminalOutput (view st') = terminalOutput (view st) ++ [notice; reply]
      ∧ if lookingGlassContext r then
          calls st'
          = calls st ++ [GenerateContent
                           (IdeaRequest None (seen_currentUserProfile r) nuance)]
          ∧ ChatMessage.type reply = error
          ∧ ChatMessage.text reply
            = "Error analyzing idea: " +:+ typeError_read "substring"
        else
          calls st'
          = calls st ++ [GenerateContent
                           (IdeaRequest None (seen_currentUserProfile r) nuance)]
          ∧ ChatMessage.type reply = ai_response
          ∧ ChatMessage.text reply
            = "Analysis for " +:+ dq +:+ "undefined" +:+ dq
                +:+ " complete. See Looking Glass for details. Conceptual Loom integration for idea lifecycle tracking active.".
Proof.
  intros Hon Hanalysis st'. subst st'. unfold handleNewIdea. rewrite Hon.
  run_monad. cbn. rewrite Hanalysis.
  destruct (lookingGlassContext r); cbn;
    (split; [done|]); (split; [done|]);
    eexists _, _; rewrite <- app_assoc; (split; [reflexivity|]); by cbn.
Qed.

End HandlerFacts.

(** ** The live audio session *)

Section LiveSessionFacts.
Context `{Host} (w : World) (r : Render).
Import JS TerminalView.

Local Ltac run_monad :=
  unfold output, message, addOutput, setTerminalOutput, setLoading,
    setLiveSessionActive, setLiveTranscript, setAudioQueue, setIsInterrupted,
    setCurrentUserProfile, setCommandInput, call_generateContent,
    show_panel, lookingGlass, read_refs, tick, log, unawaited,
    mbind, M_bind, mret, M_ret, lift, modify, throw, try_catch, try_finally.

(** X18.  The three ways [startLiveConversation] ends with the API
    active.  It never throws and always clears the loading flag.  When
    the connection fails, the session flag is off again and one error is
    reported, the microphone is not asked for.  When the connection
    succeeds, the microphone is asked for, and "Live audio conversation
    started." is appended whether or not the microphone could be opened:
    a refused microphone turns the session flag off and reports an error,
    but the connected session is kept and not closed. *)
Theorem startLiveConversation_outcomes st :
  inactive r = false →
  let st' := snd (startLiveConversation w r st) in
  let connect := LiveConnect (seen_currentUserProfile r) in
  fst (startLiveConversation w r st) = Normal ()
  ∧ loading (view st') = false
  ∧ match GeminiService.startLiveSession (live_connect w (ticks st)) with
    | Throw message =>
        liveSessionActive (view st') = false
        ∧ refs st' = session_ref (Some false) (refs st)
        ∧ calls st' = calls st ++ [connect]
        ∧ ∃ m, terminalOutput (view st') = terminalOutput (view st) ++ [m]
               ∧ ChatMessage.type m = error
               ∧ ChatMessage.text m
                 = "Failed to start live conversation: " +:+ message +:+ "."
    | Normal _ =>
        calls st' = calls st ++ [connect; GetUserMedia]
        ∧ ∃ m started,
            terminalOutput (view st') = terminalOutput (view st) ++ [m; started]
            ∧ ChatMessage.text started
              = "Live audio conversation started. You can now speak."
            ∧ match getUserMedia w (S (ticks st)) with
              | Normal _ =>
                  liveSessionActive (view st') = true
                  ∧ refs st' = session_ref (Some true) (microphone_refs true (refs st))
                  ∧ ChatMessage.text m = "Microphone input started for live session."
              | Throw message =>
                  liveSessionActive (view st') = false
                  ∧ refs st' = session_ref (Some true) (refs st)
                  ∧ ChatMessage.type m = error
                  ∧ ChatMessage.text m
                    = "Error accessing microphone: " +:+ message
                        +:+ ". Please ensure permissions are granted."
              end
    end.
Proof.
  intros Hon st' connect. subst st' connect.
  unfold startLiveConversation, startMicrophoneInput. rewrite Hon.
  cbv zeta. run_monad. cbn.
  destruct (GeminiService.startLiveSession _) as [[]|message]; cbn.
  - destruct (getUserMedia w _) as [[]|message]; cbn;
      (split; [done|]); (split; [done|]);
      (split; [by rewrite <- app_assoc|]);
      eexists _, _; rewrite <- app_assoc; (split; [reflexivity|]); by cbn.
  - split; [done|]. split; [done|]. split; [done|]. split; [done|].
    split; [done|]. eexists. split; [reflexivity|]. by cbn.
Qed.

(** X19.  [endLiveConversation] can be called in any state.  It closes
    and stops exactly what the refs hold, leaves every ref empty, the
    session flag off, the transcript and the audio queue empty, and
    appends "Microphone input stopped.".  Calling it again releases
    nothing a second time.  The session is closed in a callback of its
    promise, so no order is stated between the releases. *)
Theorem endLiveConversation_releases st :
  let st' := snd (endLiveConversation w st) in
  let st'' := snd (endLiveConversation w st') in
  fst (endLiveConversation w st) = Normal ()
  ∧ (∃ made, calls st' = calls st ++ made ∧ made ≡ₚ released (refs st))
  ∧ refs st' = session_ref None (microphone_refs false (refs st))
  ∧ liveSessionActive (view st') = false
  ∧ liveTranscript (view st') = None
  ∧ audioQueue (view st') = []
  ∧ isInterrupted (view st') = false
  ∧ (∃ m, terminalOutput (view st') = terminalOutput (view st) ++ [m]
          ∧ ChatMessage.text m = "Microphone input stopped.")
  ∧ calls st'' = calls st'
  ∧ refs st'' = refs st'.
Proof.
  intros st' st''. subst st' st''.
  unfold endLiveConversation, stopMicrophoneInput, released.
  destruct st as [v [context node processor stream session] made k queue].
  run_monad.
  destruct session as [[]|], context, node, processor, stream; cbn;
    rewrite ?app_nil_r, <- ?app_assoc; cbn;
    split_and!; try done;
    first [ by eexists
          | by (exists []; rewrite app_nil_r)
          | eexists; (split; [reflexivity|]); cbn; reflexivity ].
Qed.

End LiveSessionFacts.

(** ** A whole session, and restoring a snapshot *)

Section RestoreFacts.
Context `{Host} (w : World) (r : Render).
Import JS TerminalView.

Local Ltac run_monad :=
  unfold output, message, addOutput, setTerminalOutput, setLoading,
    setLiveSessionActive, setLiveTranscript, setAudioQueue, setIsInterrupted,
    setCurrentUserProfile, setCommandInput, call_generateContent,
    show_panel, lookingGlass, read_refs, tick, log, unawaited,
    mbind, M_bind, mret, M_ret, lift, modify, throw, try_catch, try_finally.

(** X20.  Ending a conversation gives back what starting it took.  From a
    state whose refs are empty, [startLiveConversation] followed by
    [endLiveConversation] leaves the refs empty and the session flag off.
    The calls made are the connection and, if it was made, the
    microphone request; then, in an order that is not stated, the closing
    of the session if it was connected and the four releases of the audio
    graph if the microphone was opened. *)
Theorem live_session_round_trip st :
  inactive r = false →
  refs st = refs initial_state →
  let st1 := snd (startLiveConversation w r st) in
  let st2 := snd (endLiveConversation w st1) in
  let connected :=
    match GeminiService.startLiveSession (live_connect w (ticks st)) with
    | Normal _ => true
    | Throw _ => false
    end in
  let recording :=
    connected && match getUserMedia w (S (ticks st)) with
                 | Normal _ => true
                 | Throw _ => false
                 end in
  refs st2 = refs st
  ∧ liveSessionActive (view st2) = false
  ∧ loading (view st2) = false
  ∧ ∃ made,
      calls st2
      = calls st ++ LiveConnect (seen_currentUserProfile r)
          :: (if connected then [GetUserMedia] else []) ++ made
      ∧ made ≡ₚ (if connected then [SessionClose] else [])
                ++ (if recording
                    then [TrackStop; ScriptProcessorDisconnect;
                          InputNodeDisconnect; AudioContextClose]
                    else []).
Proof.
  intros Hon Hrefs. cbv zeta.
  unfold startLiveConversation, startMicrophoneInput, endLiveConversation,
    stopMicrophoneInput.
  rewrite Hon. cbv zeta. destruct st as [v rs made k queue].
  cbn [refs] in Hrefs. subst rs. run_monad. cbn.
  destruct (GeminiService.startLiveSession _) as [[]|message]; cbn.
  - destruct (getUserMedia w _) as [[]|message]; cbn;
      rewrite <- ?app_assoc; cbn; split_and!; try done;
      eexists; (split; [reflexivity|]); cbn; reflexivity.
  - rewrite <- ?app_assoc; cbn. split_and!; try done.
    eexists. split; [reflexivity|]. cbn. reflexivity.
Qed.

(** X24.  Restoring a snapshot.  The sink becomes the snapshot's output
    followed by the notices of the restore, the profile becomes the
    snapshot's, the input, loading flag, transcript, audio queue and
    interruption flag are reset.  A snapshot taken during a live session
    does not bring the session back: the session flag ends up off, and
    whatever the refs held is released. *)
Theorem restoreFromSnapshot_state snapshot st :
  let st' := snd (restoreFromSnapshot w (Some snapshot) st) in
  fst (restoreFromSnapshot w (Some snapshot) st) = Normal ()
  ∧ (∃ notices,
       getTerminalState st'
       = {| ts_terminalOutput := ts_terminalOutput snapshot ++ notices;
            ts_currentUserProfile := ts_currentUserProfile snapshot;
            ts_liveSessionActive := false |}
       ∧ ChatMessage.text <$> notices
         = if ts_liveSessionActive snapshot
           then ["Microphone input stopped.";
                 "Terminal state restored from snapshot."]
           else ["Terminal state restored from snapshot."])
  ∧ commandInput (view st') = ""
  ∧ loading (view st') = false
  ∧ liveTranscript (view st') = None
  ∧ audioQueue (view st') = []
  ∧ isInterrupted (view st') = false
  ∧ (if ts_liveSessionActive snapshot
     then refs st' = session_ref None (microphone_refs false (refs st))
          ∧ ∃ made, calls st' = calls st ++ made ∧ made ≡ₚ released (refs st)
     else refs st' = refs st ∧ calls st' = calls st).
Proof.
  cbv zeta. unfold restoreFromSnapshot, endLiveConversation,
    stopMicrophoneInput, getTerminalState, released.
  destruct snapshot as [sink profile live].
  destruct st as [v [context node processor stream session] made k queue].
  cbn [ts_terminalOutput ts_currentUserProfile ts_liveSessionActive].
  run_monad.
  destruct live; cbn.
  - destruct session as [[]|], context, node, processor, stream; cbn;
      rewrite ?app_nil_r, <- ?app_assoc; cbn;
      (split; [done|]);
      (split; [eexists [_; _]; split; reflexivity|]);
      split_and!; try done;
      first [ by eexists
            | by (exists []; rewrite app_nil_r)
            | eexists; (split; [reflexivity|]); cbn; reflexivity ].
  - split; [done|]. split; [by eexists [_]|]. split_and!; done.
Qed.

End RestoreFacts.

(** ** Live messages *)

Section LiveMessageFacts.
Context `{Host} (w : World).
Import JS TerminalView.

Local Ltac run_monad :=
  unfold output, message, addOutput, setTerminalOutput, setLoading,
    setLiveSessionActive, setLiveTranscript, setAudioQueue, setIsInterrupted,
    setCurrentUserProfile, setCommandInput, pushAudio,
    read_refs, tick, log,
    mbind, M_bind, mret, M_ret, lift, modify, throw, try_catch, try_finally.

(** The audio stanza: it only touches the queue, and only adds to it. *)
Lemma audio_stanza (content : option LiveServerContent) st :
  let m : M unit :=
    match content with
    | Some {| modelTurn := Some ({| inlineData := Some blob |} :: _) |} =>
        if String.eqb (Blob.data blob) "" then mret ()
        else pushAudio (Blob.data blob)
    | _ => mret ()
    end in
  ∃ queue, m st = (Normal (), with_view (view_audioQueue queue) st)
           ∧ audioQueue (view st) `prefix_of` queue.
Proof.
  cbv zeta. destruct st as [[] ? ? ? ?].
  destruct content as [[[[|[[blob|] ?] ?]|] ? ? ? ?]|];
    try (eexists; split; [reflexivity|done]).
  destruct (String.eqb _ _); (eexists; split; [reflexivity|]);
    [done|by apply prefix_app_r].
Qed.

Lemma not_true_match (flag : option bool) (a b : M unit) :
  flag ≠ Some true → match flag with Some true => a | _ => b end = b.
Proof. by destruct flag as [[]|]. Qed.

(** The transcript a message asks to show: what the user said if the
    message carries that, else what the model said. *)
Lemma transcription_stanzas (out inp : option Transcription.t) st :
  let said (t : option Transcription.t) :=
    match t with
    | Some t => negb (String.eqb (Transcription.text t) "")
    | None => false
    end in
  ((match out with
    | Some t =>
        if String.eqb (Transcription.text t) "" then mret ()
        else setLiveTranscript (Some ("AI: " +:+ Transcription.text t))
    | None => mret ()
    end : M unit);;
   (match inp with
    | Some t =>
        if String.eqb (Transcription.text t) "" then mret ()
        else setLiveTranscript (Some ("USER: " +:+ Transcription.text t))
    | None => mret ()
    end : M unit)) st
  = (Normal (),
     if said inp
     then with_view (view_liveTranscript
                       (Some ("USER: " +:+ from_option Transcription.text "" inp))) st
     else if said out
     then with_view (view_liveTranscript
                       (Some ("AI: " +:+ from_option Transcription.text "" out))) st
     else st).
Proof.
  cbv zeta. destruct st as [[] ? ? ? ?].
  destruct out as [[text1 ?]|], inp as [[text2 ?]|]; cbn [Transcription.text];
    repeat match goal with
           | |- context [String.eqb ?s ""] =>
               lazymatch s with
               | text1 => destruct (String.eqb text1 "")
               | text2 => destruct (String.eqb text2 "")
               end
           end; reflexivity.
Qed.

(** A message that carries a transcription and neither completes the turn
    nor interrupts: the model's speech is shown unless the message also
    carries text of the user's, the user's speech is shown in any case. *)
Lemma heard_effect (of_model : bool) seen heard c t st :
  serverContent heard = Some c →
  (if of_model then outputTranscription c else inputTranscription c) = Some t →
  Transcription.text t ≠ "" →
  (of_model = true →
   ∀ u, inputTranscription c = Some u → Transcription.text u = "") →
  turnComplete c ≠ Some true → interrupted c ≠ Some true →
  ∃ queue,
    handleLiveMessage w seen heard st
    = (Normal (),
       with_view (view_liveTranscript
                    (Some ((if of_model then "AI: " else "USER: ")
                             +:+ Transcription.text t)))
         (with_view (view_audioQueue queue) st))
    ∧ audioQueue (view st) `prefix_of` queue.
Proof.
  intros Hheard Ht Hne%String.eqb_neq Hother Hturn Hint.
  unfold handleLiveMessage. rewrite Hheard. cbv zeta.
  destruct (audio_stanza (Some c) st) as (queue & Haudio & Hprefix).
  cbv zeta in Haudio. rewrite (bind_normal _ _ _ _ _ Haudio).
  exists queue. split; [|done].
  destruct c as [turn int out inp done].
  cbn [outputTranscription inputTranscription turnComplete interrupted] in *.
  rewrite (not_true_match done) by done.
  rewrite (not_true_match int) by done.
  destruct of_model; subst.
  - destruct inp as [u|].
    + rewrite (Hother eq_refl u eq_refl). rewrite Hne. reflexivity.
    + rewrite Hne. reflexivity.
  - rewrite Hne. destruct out as [u|]; [|reflexivity].
    by destruct (String.eqb (Transcription.text u) "").
Qed.

(** A message that completes the turn: whatever else it carries, the
    transcript seen by the handler's render is flushed and the transcript
    is cleared; if the message also interrupts, the interruption stanza
    runs after that. *)
Lemma turn_effect seen turn c st :
  serverContent turn = Some c →
  turnComplete c = Some true →
  ∃ queue,
    audioQueue (view st) `prefix_of` queue
    ∧ handleLiveMessage w seen turn st
      = ((match seen with
          | Some liveTranscript =>
              if String.eqb liveTranscript "" then mret ()
              else
                output w "live-"
                  (if startsWith liveTranscript "AI:" then "AI" else "USER")
                  (strip_speaker liveTranscript) true ai_response
          | None => mret ()
          end : M unit);;
         setLiveTranscript None;;
         match interrupted c with
         | Some true =>
             setIsInterrupted true;;
             setLiveTranscript (Some "Conversation interrupted.");;
             output w "interrupted-" "SYSTEM"
               "Live conversation interrupted by server." true system_message
         | _ => mret ()
         end) (with_view (view_audioQueue queue) st).
Proof.
  intros Hturn Hdone.
  unfold handleLiveMessage. rewrite Hturn. cbv zeta.
  destruct (audio_stanza (Some c) st) as (queue & Haudio & Hprefix).
  cbv zeta in Haudio. rewrite (bind_normal _ _ _ _ _ Haudio).
  exists queue. split; [done|].
  destruct c as [model int out inp done].
  cbn [outputTranscription inputTranscription turnComplete interrupted] in *.
  subst done. destruct st as [[] ? ? ? ?].
  destruct out as [[text1 ?]|], inp as [[text2 ?]|];
    cbn [Transcription.text];
    repeat match goal with
           | |- context [String.eqb ?s ""] =>
               lazymatch s with
               | text1 => destruct (String.eqb text1 "")
               | text2 => destruct (String.eqb text2 "")
               end
           end;
    destruct int as [[]|]; destruct seen as [[|c0 rest]|]; reflexivity.
Qed.

(** X21.  A transcription shown and then flushed.  Take a message that
    carries a transcription with text of the model's speech and no text
    of the user's (or a transcription with text of the user's speech), and
    that neither completes the turn nor interrupts: the transcript then
    shows the text behind "AI: " ("USER: ") and the sink is as before.
    When any message that completes the turn is handled next, by the
    handler of the render in between, one message whose sender is "AI"
    ("USER") and whose text is the transcribed text is appended; it is
    followed by the interruption notice if the completing message also
    interrupts, and by nothing otherwise.  The transcript is then empty,
    or reads "Conversation interrupted." after an interruption. *)
Theorem transcript_round_trip (of_model : bool) heard c1 t turn c2 st :
  serverContent heard = Some c1 →
  (if of_model then outputTranscription c1 else inputTranscription c1) = Some t →
  Transcription.text t ≠ "" →
  (of_model = true →
   ∀ u, inputTranscription c1 = Some u → Transcription.text u = "") →
  turnComplete c1 ≠ Some true → interrupted c1 ≠ Some true →
  serverContent turn = Some c2 →
  turnComplete c2 = Some true →
  let st1 := snd (handleLiveMessage w (liveTranscript (view st)) heard st) in
  let st2 := snd (handleLiveMessage w (liveTranscript (view st1)) turn st1) in
  let interrupts := match interrupted c2 with Some true => true | _ => false end in
  liveTranscript (view st1)
  = Some ((if of_model then "AI: " else "USER: ") +:+ Transcription.text t)
  ∧ terminalOutput (view st1) = terminalOutput (view st)
  ∧ liveTranscript (view st2)
    = (if interrupts then Some "Conversation interrupted." else None)
  ∧ ∃ m notice,
      terminalOutput (view st2) = terminalOutput (view st) ++ m :: notice
      ∧ ChatMessage.sender m = (if of_model then "AI" else "USER")
      ∧ ChatMessage.text m = Transcription.text t
      ∧ ChatMessage.type m = ai_response
      ∧ if interrupts
        then ∃ n, notice = [n]
                  ∧ ChatMessage.sender n = "SYSTEM"
                  ∧ ChatMessage.text n = "Live conversation interrupted by server."
        else notice = [].
Proof.
  intros Hheard Ht Hne Hother Hturn1 Hint1 Hturn Hdone. cbv zeta.
  destruct (heard_effect of_model (liveTranscript (view st)) heard c1 t st)
    as (q1 & -> & _); [done..|].
  cbn [snd].
  match goal with
  | |- context [handleLiveMessage w ?seen turn ?s] =>
      destruct (turn_effect seen turn c2 s) as (q2 & _ & ->); [done..|]
  end.
  cbn [with_view view view_liveTranscript liveTranscript].
  destruct of_model.
  - change ("AI: " +:+ Transcription.text t)
      with (String "A" (String "I" (String ":" (String " " (Transcription.text t))))).
    destruct (interrupted c2) as [[]|]; run_monad; cbn;
      (split; [done|]); (split; [done|]); (split; [done|]);
      eexists _, _; rewrite <- ?app_assoc;
      (split; [reflexivity|]); split_and!; try done; by eexists.
  - change ("USER: " +:+ Transcription.text t)
      with (String "U" (String "S" (String "E" (String "R"
             (String ":" (String " " (Transcription.text t))))))).
    destruct (interrupted c2) as [[]|]; run_monad; cbn;
      (split; [done|]); (split; [done|]); (split; [done|]);
      eexists _, _; rewrite <- ?app_assoc;
      (split; [reflexivity|]); split_and!; try done; by eexists.
Qed.

(** X22.  What a turn completion writes and leaves, for every message
    that completes a turn.  The message written is the transcript of the
    render that created the handler - sender "AI" exactly when it starts
    with "AI:", the text without the speaker prefix - and nothing is
    written when that transcript is null or empty.  A transcription that
    arrives in the completing message itself is set and cleared in the
    same call and never written.  If the message also interrupts, the
    interruption notice follows, the flag is set and the transcript reads
    "Conversation interrupted."; otherwise the transcript is null and the
    flag is as before. *)
Theorem turn_complete_flushes_seen seen turn c st :
  serverContent turn = Some c →
  turnComplete c = Some true →
  let st' := snd (handleLiveMessage w seen turn st) in
  let interrupts := match interrupted c with Some true => true | _ => false end in
  fst (handleLiveMessage w seen turn st) = Normal ()
  ∧ liveTranscript (view st')
    = (if interrupts then Some "Conversation interrupted." else None)
  ∧ isInterrupted (view st') = (if interrupts then true else isInterrupted (view st))
  ∧ ∃ flushed notice,
      terminalOutput (view st') = terminalOutput (view st) ++ flushed ++ notice
      ∧ match seen with
        | Some (String c0 rest) =>
            ∃ m, flushed = [m]
                 ∧ ChatMessage.sender m
                   = (if startsWith (String c0 rest) "AI:" then "AI" else "USER")
                 ∧ ChatMessage.text m = strip_speaker (String c0 rest)
                 ∧ ChatMessage.type m = ai_response
        | _ => flushed = []
        end
      ∧ if interrupts
        then ∃ n, notice = [n]
                  ∧ ChatMessage.sender n = "SYSTEM"
                  ∧ ChatMessage.text n = "Live conversation interrupted by server."
        else notice = [].
Proof.
  intros Hturn Hdone. cbv zeta.
  destruct (turn_effect seen turn c st) as (queue & _ & ->); [done..|].
  destruct (interrupted c) as [[]|], seen as [[|c0 rest]|];
    run_monad; cbn [String.eqb]; cbn;
    (split; [done|]); (split; [done|]); (split; [done|]);
    first
      [ solve [ eexists [_], [_]; rewrite <- ?app_assoc;
                (split; [reflexivity|]); split_and!; try done; by eexists ]
      | solve [ eexists [_], []; rewrite ?app_nil_r;
                (split; [reflexivity|]); split_and!; try done; by eexists ]
      | solve [ eexists [], [_];
                (split; [reflexivity|]); split_and!; try done; by eexists ]
      | solve [ eexists [], []; rewrite ?app_nil_r;
                (split; [reflexivity|]); split_and!; try done ] ].
Qed.

(** X23.  An interruption is recorded and reported, and that is all: the
    flag is set, the transcript reads "Conversation interrupted.", the
    last message of the sink is the notice, and the audio that was queued
    stays queued. *)
Theorem interruption_keeps_audio seen message c st :
  serverContent message = Some c →
  interrupted c = Some true →
  let st' := snd (handleLiveMessage w seen message st) in
  fst (handleLiveMessage w seen message st) = Normal ()
  ∧ isInterrupted (view st') = true
  ∧ liveTranscript (view st') = Some "Conversation interrupted."
  ∧ audioQueue (view st) `prefix_of` audioQueue (view st')
  ∧ terminalOutput (view st) `prefix_of` terminalOutput (view st')
  ∧ ∃ m, last (terminalOutput (view st')) = Some m
         ∧ ChatMessage.sender m = "SYSTEM"
         ∧ ChatMessage.text m = "Live conversation interrupted by server.".
Proof.
  intros Hmessage Hint. cbv zeta.
  unfold handleLiveMessage. rewrite Hmessage. cbv zeta.
  destruct (audio_stanza (Some c) st) as (queue & Haudio & Hprefix).
  cbv zeta in Haudio. rewrite (bind_normal _ _ _ _ _ Haudio).
  destruct c as [model int out inp done].
  cbn [outputTranscription inputTranscription turnComplete interrupted] in *.
  subst int. destruct st as [[sink ? ? ? ? queue0 ? ?] ? ? ? ?].
  cbn [view audioQueue terminalOutput] in *.
  destruct out as [[text1 ?]|], inp as [[text2 ?]|];
    cbn [Transcription.text];
    repeat match goal with
           | |- context [String.eqb ?s ""] =>
               lazymatch s with
               | text1 => destruct (String.eqb text1 "")
               | text2 => destruct (String.eqb text2 "")
               end
           end;
    destruct done as [[]|];
    try (destruct seen as [[|c0 rest]|]);
    run_monad; cbn;
    (split; [done|]); (split; [done|]); (split; [done|]); (split; [done|]);
    (split; [try (rewrite <- app_assoc); by apply prefix_app_r|]);
    eexists; (split; [apply last_snoc|]); by cbn.
Qed.

End LiveMessageFacts.

(** ** Results the dispatcher has no handler for *)

Section DispatchEdges.
Context `{Host} (w : World) (r : Render).
Import JS TerminalView.

Local Ltac enter_switch Hclear Hintent :=
  unfold dispatch;
  rewrite (dispatch_reads _ _ _ Hintent); cbv beta;
  rewrite Hclear; cbv iota;
  repeat (rewrite (dispatch_reads _ _ _ Hintent); cbv beta);
  rewrite Hintent;
  cbn [strict_equals String.eqb Ascii.eqb Bool.eqb].

Local Ltac listed :=
  repeat first [ apply list_elem_of_here | apply list_elem_of_further ].




(** X26.  The classifier's allow-list and the dispatcher's inner switch
    do not agree.  The classifier compares the lower-cased script name
    with its list, the dispatcher compares the name as it is, and has no
    case for "newidea_init_prompt".  A name that is on the list after
    lower-casing but is none of the ten names the dispatcher handles
    passes the classifier unchanged, and the dispatcher then reports it as
    not recognized. *)
Theorem allowed_script_not_handled rawCommand st st1 text nluOutput name :
  inactive r = false →
  completion_at w st = Normal text →
  JSON_parse text = Normal nluOutput →
  truthy (optional_member (Some nluOutput) "clarificationNeeded") = false →
  optional_member (Some nluOutput) "intent" = Some (JStr "trigger_conceptual_backend") →
  parameter nluOutput "script_name" = Some (JStr name) →
  list_includes validConceptualCommands (toLowerCase name) = true →
  (∀ handled, handled ∈ validConceptualCommands →
              handled ≠ "newidea_init_prompt" → name ≠ handled) →
  fst (analyzeNaturalLanguageCommand w r rawCommand st) = Normal nluOutput
  ∧ ∃ m, fst (dispatch w r nluOutput rawCommand st1) = Normal ()
         ∧ appended m st1 (snd (dispatch w r nluOutput rawCommand st1))
         ∧ ChatMessage.type m = error
         ∧ ChatMessage.text m
           = "Conceptual script '" +:+ name +:+ "' not recognized or handled.".
Proof.
  intros Hon Htext Hparse Hclear Hintent Hscript Hallowed Hnone. split.
  - rewrite analyze_active by done. cbn [fst]. unfold answer.
    rewrite Htext, Hparse, !(member_of_object _ _ _ Hintent), Hintent.
    unfold validate. fold (parameter nluOutput "script_name").
    cbn [strict_equals String.eqb Ascii.eqb Bool.eqb].
    rewrite Hscript. cbn [as_string]. by rewrite Hallowed.
  - assert (∀ handled, handled ∈ validConceptualCommands →
              handled ≠ "newidea_init_prompt" →
              String.eqb name handled = false) as Hfalse.
    { intros handled Hin Hhandled. apply String.eqb_neq. by apply Hnone. }
    enter_switch Hclear Hintent. unfold conceptualBackend.
    fold (parameter nluOutput "script_name"). rewrite Hscript.
    cbn [strict_equals toString toString_json].
    repeat (rewrite Hfalse by (first [by listed | done]); cbv iota).
    match goal with
    | |- context [output w ?p ?s ?t ?b ?ty st1] =>
        destruct (output_appended w p s t b ty st1) as (m & Hfst & Happ & Hs & Ht & Hty)
    end.
    exists m. by rewrite Ht, Hty.
Qed.


(** X28.  A snapshot action the dispatcher does not know is dropped
    without a word: when [action] is neither "take_snapshot" nor
    "restore_snapshot_list" - it is missing, not a string, or spelled with
    other letter case, which the classifier's check lets through - then
    the dispatcher changes nothing and reports nothing. *)
Theorem other_snapshot_action_ignored nluResult rawCommand st :
  truthy (optional_member (Some nluResult) "clarificationNeeded") = false →
  optional_member (Some nluResult) "intent" = Some (JStr "trigger_snapshot_action") →
  parameter nluResult "action" ≠ Some (JStr "take_snapshot") →
  parameter nluResult "action" ≠ Some (JStr "restore_snapshot_list") →
  dispatch w r nluResult rawCommand st = (Normal (), st).
Proof.
  intros Hclear Hintent Htake Hlist.
  enter_switch Hclear Hintent. unfold snapshotAction.
  fold (parameter nluResult "action").
  by rewrite !not_equal_false.
Qed.

End DispatchEdges.

(** ** Concrete inputs for the further properties *)

Section FurtherRuns.
Import JS TerminalView ReferenceHost Scenario.

Local Ltac listed :=
  repeat first [ apply list_elem_of_here | apply list_elem_of_further ].

(** X1 at a concrete input: a snapshot taken with the notes open, saved
    next to "b".  What is found under "a" holds a plain object where the
    snapshot held the panel. *)
Lemma loadSnapshot_after_save_witness :
  let b := record_of "b" "second" initial_state in
  let a := showing ClaudeDevNotes (snapshot_of "a" "first" initial_state) in
  let store := snd (SnapshotService.saveSnapshot content_json true a
                      (SnapshotService.Snapshots [b])) in
  ∃ stored_a,
    SnapshotService.stored content_json a = Normal stored_a
    ∧ SnapshotService.loadSnapshot "a" store = Normal (Some stored_a)
    ∧ SnapshotService.loadSnapshot "b" store = Normal (Some b)
    ∧ AppSnapshot.terminalState stored_a = AppSnapshot.terminalState a
    ∧ content (lookingGlassState (AppSnapshot.appState stored_a))
      = Some (JObj [("key", JNull); ("ref", JNull); ("props", JObj [])]).
Proof.
  intros b a store. eexists. split; [reflexivity|].
  destruct (loadSnapshot_after_save content_json a "a" (SnapshotService.Snapshots [b]))
    as [Ha Hfields].
  destruct (loadSnapshot_after_save content_json a "b" (SnapshotService.Snapshots [b]))
    as [Hb _].
  split; [exact Ha|]. split; [exact Hb|].
  destruct (Hfields _ eq_refl) as (_ & _ & _ & Hterminal & _).
  split; [exact Hterminal|reflexivity].
Defined.


(** X4 at a concrete input: saving "b" next to "a" and deleting it again. *)
Lemma deleteSnapshot_undoes_save_witness :
  let a := record_of "a" "first" initial_state in
  let b := showing SwarmPilotingGuide (snapshot_of "b" "second" (live initial_state)) in
  (∀ x, x ∈ [a] → AppSnapshot.id x ≠ AppSnapshot.id b)
  ∧ SnapshotService.deleteSnapshot true "b"
      (snd (SnapshotService.saveSnapshot content_json true b
              (SnapshotService.Snapshots [a])))
    = (Normal (), SnapshotService.Snapshots [a]).
Proof.
  intros a b.
  assert (∀ x, x ∈ [a] → AppSnapshot.id x ≠ AppSnapshot.id b) as Hfresh.
  { intros x Hx. by apply list_elem_of_singleton in Hx as ->. }
  split; [exact Hfresh|].
  exact (proj2 (deleteSnapshot_undoes_save content_json [a] b Hfresh)).
Defined.


(** X9 at a concrete input: a digit of the URL-safe alphabet. *)
Lemma decode_illegal_character_witness :
  In "-"%char (list_ascii_of_string "TW-u")
  ∧ GeminiService.decode "TW-u" = Throw "InvalidCharacterError".
Proof.
  assert (In "-"%char (list_ascii_of_string "TW-u")) as Hin
    by (right; right; left; reflexivity).
  split; [exact Hin|].
  apply (decode_illegal_character "TW-u" "-" Hin); [reflexivity|discriminate|reflexivity].
Defined.

(** X11 at a concrete input: "profile bleak" on the freshly mounted
    component. *)
Lemma profile_stays_in_table_witness :
  let w := replying (intent_with "switch_profile" "profile_id" "bleak") in
  currentUserProfile (view initial_state) ∈ USER_PROFILES
  ∧ ∃ st', handleCommandSubmit w active 1 "profile bleak" initial_state = Some st'
           ∧ UserProfile.id (currentUserProfile (view st')) = "bleak"
           ∧ currentUserProfile (view st') ∈ USER_PROFILES.
Proof.
  intros w.
  assert (currentUserProfile (view initial_state) ∈ USER_PROFILES) as Hst
    by apply list_elem_of_here.
  split; [exact Hst|].
  assert (∃ st', handleCommandSubmit w active 1 "profile bleak" initial_state = Some st'
                 ∧ UserProfile.id (currentUserProfile (view st')) = "bleak")
    as (st' & Hrun & Hid).
  { vm_compute. eexists. split; reflexivity. }
  exists st'. split; [exact Hrun|]. split; [exact Hid|].
  exact (profile_stays_in_table w active 1 "profile bleak" initial_state st' Hst Hrun).
Defined.

(** X12 at a concrete input: "help" keeps what the sink holds. *)
Lemma resume_keeps_history_witness :
  let w := replying (intent_only "help") in
  let st := snd (output w "system-" "SYSTEM" "Welcome." true system_message
                   initial_state) in
  (∀ nluResult,
     fst (analyzeNaturalLanguageCommand w active "help" st) = Normal nluResult →
     optional_member (Some nluResult) "intent" ≠ Some (JStr "clear"))
  ∧ ∃ added,
      terminalOutput (view (snd (handleCommandSubmit_resume w active "help" st)))
      = terminalOutput (view st) ++ added.
Proof.
  intros w st.
  assert (∀ nluResult,
            fst (analyzeNaturalLanguageCommand w active "help" st) = Normal nluResult →
            optional_member (Some nluResult) "intent" ≠ Some (JStr "clear")) as Hother.
  { intros nluResult Hresult. vm_compute in Hresult.
    injection Hresult as <-. discriminate. }
  split; [exact Hother|].
  exact (resume_keeps_history w active "help" st Hother).
Defined.

(** X13 at a concrete input: "help" settles in one round. *)
Lemma command_settles_in_one_round_witness :
  let w := replying (intent_only "help") in
  pending initial_state = []
  ∧ (∀ st1 nluResult,
       fst (analyzeNaturalLanguageCommand w active "help" st1) = Normal nluResult →
       reentrant nluResult = false)
  ∧ ∃ st', handleCommandSubmit w active 1 "help" initial_state = Some st'
           ∧ pending st' = []
           ∧ loading (view st') = false.
Proof.
  intros w.
  assert (∀ st1 nluResult,
            fst (analyzeNaturalLanguageCommand w active "help" st1) = Normal nluResult →
            reentrant nluResult = false) as Hnot.
  { intros st1 nluResult Hresult.
    rewrite analyze_active in Hresult by reflexivity.
    vm_compute in Hresult. by injection Hresult as <-. }
  split; [reflexivity|]. split; [exact Hnot|].
  destruct (command_settles_in_one_round w active "help" initial_state eq_refl Hnot)
    as (st' & Hrun & Hpending & Hloading).
  exists st'. split; [exact Hrun|]. split; [exact Hpending|]. exact Hloading.
Defined.

(** X14 at a concrete input: an "ask_ai" result handed to the dispatcher
    of a render without the API. *)
Lemma dispatch_offline_witness :
  let nluResult := ask_ai_result "what is a monad" in
  inactive inactive_render = true
  ∧ ∃ made,
      calls (snd (dispatch (replying "") inactive_render nluResult "what is a monad"
                    initial_state))
      = calls initial_state ++ made
      ∧ ∀ c, c ∈ made →
          (∀ request, c ≠ GenerateContent request)
          ∧ (∀ profile, c ≠ LiveConnect profile)
          ∧ c ≠ GetUserMedia.
Proof.
  intros nluResult. split; [reflexivity|].
  exact (dispatch_offline (replying "") inactive_render nluResult "what is a monad"
           initial_state eq_refl).
Defined.

(** X15 at a concrete input: the refactoring handler without the API. *)
Lemma api_guard_witness :
  let handler := handleRefactorCode (replying "") inactive_render in
  inactive inactive_render = true
  ∧ ∃ m, fst (handler initial_state) = Normal ()
         ∧ appended m (with_calls (λ l, l ++ [SelectApiKey]) initial_state)
             (snd (handler initial_state))
         ∧ ChatMessage.type m = error.
Proof.
  intros handler. split; [reflexivity|].
  apply (api_guard (replying "") inactive_render handler None None initial_state eq_refl).
  subst handler. listed.
Defined.


(** X17 at a concrete input: the idea request without a description,
    with a Looking Glass. *)
Lemma handleNewIdea_missing_description_witness :
  let w := replying "analysis" in
  let st' := snd (handleNewIdea w active None None initial_state) in
  inactive active = false
  ∧ GeminiService.generateContent (models_generateContent w 2) = Normal "analysis"
  ∧ lookingGlassContext active = true
  ∧ fst (handleNewIdea w active None None initial_state) = Normal ()
  ∧ loading (view st') = false.
Proof.
  intros w st'. split; [reflexivity|]. split; [reflexivity|]. split; [reflexivity|].
  destruct (handleNewIdea_missing_description w active None initial_state "analysis"
              eq_refl eq_refl) as (Hfst & Hloading & _).
  split; [exact Hfst|exact Hloading].
Defined.

(** X18 at a concrete input: the microphone is refused. *)
Lemma startLiveConversation_outcomes_witness :
  let st' := snd (startLiveConversation no_microphone active initial_state) in
  inactive active = false
  ∧ fst (startLiveConversation no_microphone active initial_state) = Normal ()
  ∧ loading (view st') = false
  ∧ liveSessionActive (view st') = false
  ∧ sessionPromiseRef (refs st') = Some true
  ∧ ChatMessage.text <$> terminalOutput (view st')
    = ["Error accessing microphone: Permission denied. Please ensure permissions are granted.";
       "Live audio conversation started. You can now speak."].
Proof.
  intros st'. split; [reflexivity|].
  destruct (startLiveConversation_outcomes no_microphone active initial_state eq_refl)
    as (Hfst & Hloading & _).
  split; [exact Hfst|]. split; [exact Hloading|]. by vm_compute.
Defined.

(** X20 at a concrete input: the same start, followed by the end. *)
Lemma live_session_round_trip_witness :
  let st1 := snd (startLiveConversation no_microphone active initial_state) in
  let st2 := snd (endLiveConversation no_microphone st1) in
  inactive active = false
  ∧ refs st2 = refs initial_state
  ∧ ∃ made,
      calls st2 = [LiveConnect (seen_currentUserProfile active); GetUserMedia] ++ made
      ∧ made ≡ₚ [SessionClose].
Proof.
  intros st1 st2. split; [reflexivity|].
  destruct (live_session_round_trip no_microphone active initial_state eq_refl eq_refl)
    as (Hrefs & _ & _ & made & Hcalls & Hmade).
  split; [exact Hrefs|]. exists made. split; [exact Hcalls|exact Hmade].
Defined.

(** X21 at a concrete input: the model says "hello", the turn ends. *)
Lemma transcript_round_trip_witness :
  let w := replying "" in
  let st1 := snd (handleLiveMessage w None (carrying (said "hello")) initial_state) in
  let st2 := snd (handleLiveMessage w (liveTranscript (view st1)) (carrying turn_done) st1) in
  liveTranscript (view st1) = Some "AI: hello"
  ∧ liveTranscript (view st2) = None
  ∧ ∃ m, terminalOutput (view st2) = [m]
         ∧ ChatMessage.sender m = "AI"
         ∧ ChatMessage.text m = "hello".
Proof.
  intros w st1 st2.
  destruct (transcript_round_trip w true (carrying (said "hello")) (said "hello")
              (Transcription.mk "hello" false) (carrying turn_done) turn_done
              initial_state)
    as (Hshown & _ & Hcleared & m & notice & Hsink & Hsender & Htext & _ & Hnotice);
    [reflexivity|reflexivity|discriminate|discriminate|discriminate|discriminate
    |reflexivity|reflexivity|].
  cbn in Hnotice. subst notice.
  split; [exact Hshown|]. split; [exact Hcleared|].
  exists m. split; [exact Hsink|]. split; [exact Hsender|exact Htext].
Defined.

(** X22 at a concrete input: the turn is cut short while the render still
    shows what the user said. *)
Lemma turn_complete_flushes_seen_witness :
  let st' := snd (handleLiveMessage (replying "") (Some "USER: stop")
                    (carrying turn_cut) initial_state) in
  serverContent (carrying turn_cut) = Some turn_cut
  ∧ turnComplete turn_cut = Some true
  ∧ liveTranscript (view st') = Some "Conversation interrupted."
  ∧ ChatMessage.text <$> terminalOutput (view st')
    = ["stop"; "Live conversation interrupted by server."].
Proof.
  intros st'. split; [reflexivity|]. split; [reflexivity|].
  destruct (turn_complete_flushes_seen (replying "") (Some "USER: stop")
              (carrying turn_cut) turn_cut initial_state eq_refl eq_refl)
    as (_ & Htranscript & _).
  split; [exact Htranscript|reflexivity].
Defined.

(** X23 at a concrete input: an interruption that also carries audio. *)
Lemma interruption_keeps_audio_witness :
  let st := with_view (view_audioQueue ["UklG"]) initial_state in
  let st' := snd (handleLiveMessage (replying "") None (carrying interruption) st) in
  interrupted interruption = Some true
  ∧ isInterrupted (view st') = true
  ∧ audioQueue (view st') = ["UklG"; "AAAA"]
  ∧ audioQueue (view st) `prefix_of` audioQueue (view st').
Proof.
  intros st st'. split; [reflexivity|].
  destruct (interruption_keeps_audio (replying "") None (carrying interruption)
              interruption st eq_refl eq_refl)
    as (_ & Hflag & _ & Hqueue & _).
  split; [exact Hflag|]. split; [reflexivity|exact Hqueue].
Defined.


(** X26 at a concrete input: the script name "AutoClean". *)
Lemma allowed_script_not_handled_witness :
  let text := intent_with "trigger_conceptual_backend" "script_name" "AutoClean" in
  let w := replying text in
  let nluOutput :=
    JObj [("intent", JStr "trigger_conceptual_backend");
          ("parameters", JObj [("script_name", JStr "AutoClean")])] in
  JSON_parse text = Normal nluOutput
  ∧ list_includes validConceptualCommands (toLowerCase "AutoClean") = true
  ∧ fst (analyzeNaturalLanguageCommand w active "clean up" initial_state)
    = Normal nluOutput
  ∧ ∃ m, appended m initial_state
           (snd (dispatch w active nluOutput "clean up" initial_state))
         ∧ ChatMessage.text m
           = "Conceptual script 'AutoClean' not recognized or handled.".
Proof.
  intros text w nluOutput.
  assert (JSON_parse text = Normal nluOutput) as Hparse by reflexivity.
  assert (list_includes validConceptualCommands (toLowerCase "AutoClean") = true)
    as Hallowed by reflexivity.
  split; [exact Hparse|]. split; [exact Hallowed|].
  destruct (allowed_script_not_handled w active "clean up" initial_state initial_state
              text nluOutput "AutoClean")
    as (Hresult & m & _ & Happ & _ & Htext);
    [reflexivity|reflexivity|exact Hparse|reflexivity|reflexivity|reflexivity
    |exact Hallowed| |].
  { intros handled Hin _ <-.
    repeat (apply elem_of_cons in Hin as [Hin|Hin]; [discriminate Hin|]).
    by apply elem_of_nil in Hin. }
  split; [exact Hresult|]. exists m. split; [exact Happ|exact Htext].
Defined.


(** X28 at a concrete input: the action "Take_Snapshot". *)
Lemma other_snapshot_action_ignored_witness :
  let nluResult :=
    JObj [("intent", JStr "trigger_snapshot_action");
          ("parameters", JObj [("action", JStr "Take_Snapshot")])] in
  list_includes validSnapshotActions (toLowerCase "Take_Snapshot") = true
  ∧ dispatch (replying "") active nluResult "Take_Snapshot now" initial_state
    = (Normal (), initial_state).
Proof.
  intros nluResult. split; [reflexivity|].
  apply (other_snapshot_action_ignored (replying "") active nluResult);
    [reflexivity|reflexivity|discriminate|discriminate].
Defined.

End FurtherRuns.
